(** * OCHA wordmark approval ledger: a model of [google-apps-script.js]

    The script is a Google Apps Script web app.  A spreadsheet tab is the
    approval ledger; three actions ([submit], [check], [download]) read and
    write it.  This file embeds the script as functions in a small
    state-and-exception monad over a [World] that holds everything the script
    reaches through the Apps Script services: the sheet, [Math.random], the
    clock, [MailApp] and [Logger].

    A [string] stands for a JavaScript string (well-formed text) by its UTF-8
    encoding: equality, emptiness and concatenation are those of the text.  [trim] removes the
    white space and line terminators of ECMAScript, each given by its UTF-8
    bytes.  [toUpperCase] and [toLowerCase] follow the Unicode case tables,
    which are not written out here: they are the two operations of a
    [CaseMapping], of which the development uses that they act on ASCII text
    as the ASCII case mappings do and that lower-casing never empties a
    string. *)

From stdpp Require Import base list strings.
From Stdlib Require Import NArith Ascii.

(** ** ASCII case mappings *)

Module ASCII.

Definition isAscii (c : ascii) : bool := (N_of_ascii c <? 128)%N.

Definition isLower (c : ascii) : bool :=
  let n := N_of_ascii c in ((97 <=? n) && (n <=? 122))%N.

Definition isUpper (c : ascii) : bool :=
  let n := N_of_ascii c in ((65 <=? n) && (n <=? 90))%N.

Definition upperChar (c : ascii) : ascii :=
  if isLower c then ascii_of_N (N_of_ascii c - 32) else c.

Definition lowerChar (c : ascii) : ascii :=
  if isUpper c then ascii_of_N (N_of_ascii c + 32) else c.

Fixpoint mapChars (f : ascii → ascii) (s : string) : string :=
  match s with
  | EmptyString => EmptyString
  | String c r => String (f c) (mapChars f r)
  end.

(** Text made of ASCII characters only. *)
Fixpoint isText (s : string) : bool :=
  match s with
  | EmptyString => true
  | String c r => isAscii c && isText r
  end.

Definition toUpper : string → string := mapChars upperChar.
Definition toLower : string → string := mapChars lowerChar.

End ASCII.

(** ** JavaScript strings *)

Module JS.

(** White space and line terminators of ECMAScript, by their UTF-8 bytes.
    One byte: TAB, LF, VT, FF, CR, SPACE. *)
Definition isWhiteSpace1 (a : ascii) : bool :=
  let x := N_of_ascii a in
  ((9 <=? x) && (x <=? 13) || (x =? 32))%N.

(** Two bytes: U+00A0 (C2 A0). *)
Definition isWhiteSpace2 (a b : ascii) : bool :=
  ((N_of_ascii a =? 194) && (N_of_ascii b =? 160))%N.

(** Three bytes: U+1680 (E1 9A 80), U+2000 to U+200A (E2 80 80 to 8A),
    U+2028 and U+2029 (E2 80 A8, A9), U+202F (E2 80 AF), U+205F (E2 81 9F),
    U+3000 (E3 80 80), U+FEFF (EF BB BF). *)
Definition isWhiteSpace3 (a b c : ascii) : bool :=
  let x := N_of_ascii a in
  let y := N_of_ascii b in
  let z := N_of_ascii c in
  ((x =? 225) && (y =? 154) && (z =? 128)
   || (x =? 226) && (y =? 128) &&
        ((128 <=? z) && (z <=? 138) || (z =? 168) || (z =? 169) || (z =? 175))
   || (x =? 226) && (y =? 129) && (z =? 159)
   || (x =? 227) && (y =? 128) && (z =? 128)
   || (x =? 239) && (y =? 187) && (z =? 191))%N.

(** The rest of a string after the white-space character it starts with, if
    it starts with one. *)
Definition whiteSpacePrefix (s : string) : option string :=
  match s with
  | String a r =>
      if isWhiteSpace1 a then Some r
      else
        match r with
        | String b r2 =>
            if isWhiteSpace2 a b then Some r2
            else
              match r2 with
              | String c r3 => if isWhiteSpace3 a b c then Some r3 else None
              | EmptyString => None
              end
        | EmptyString => None
        end
  | EmptyString => None
  end.

Fixpoint trimStart (s : string) : string :=
  match s with
  | String a r =>
      if isWhiteSpace1 a then trimStart r
      else
        match r with
        | String b r2 =>
            if isWhiteSpace2 a b then trimStart r2
            else
              match r2 with
              | String c r3 => if isWhiteSpace3 a b c then trimStart r3 else s
              | EmptyString => s
              end
        | EmptyString => s
        end
  | EmptyString => EmptyString
  end.

(** A string of white space only. *)
Definition blank (s : string) : bool :=
  match trimStart s with EmptyString => true | _ => false end.

Fixpoint trimEnd (s : string) : string :=
  match s with
  | EmptyString => EmptyString
  | String c r => if blank s then EmptyString else String c (trimEnd r)
  end.

Definition trim (s : string) : string := trimEnd (trimStart s).

(** [s.toUpperCase()] and [s.toLowerCase()]. *)
Class CaseMapping := {
  toUpperCase : string → string;
  toLowerCase : string → string;
  toUpperCase_ascii : ∀ s, ASCII.isText s = true → toUpperCase s = ASCII.toUpper s;
  toLowerCase_ascii : ∀ s, ASCII.isText s = true → toLowerCase s = ASCII.toLower s;
  toLowerCase_nonempty : ∀ s, toLowerCase s = EmptyString → s = EmptyString
}.

(** [s.charAt(i)]: the one-character string at index [i], or [''] when the
    index is outside the string (used on ASCII text). *)
Definition charAt (s : string) (i : nat) : string :=
  match String.get i s with
  | Some c => String c EmptyString
  | None => EmptyString
  end.

(** Truthiness of a string: only [''] is falsy. *)
Definition truthy (s : string) : bool :=
  match s with EmptyString => false | _ => true end.

(** [x || d] where [x] is a string-valued property that may be absent
    ([undefined]). *)
Definition or (x : option string) (d : string) : string :=
  match x with
  | Some s => if truthy s then s else d
  | None => d
  end.

(** [lines.join(sep)] *)
Fixpoint join (sep : string) (l : list string) : string :=
  match l with
  | [] => ""
  | [x] => x
  | x :: r => x +:+ sep +:+ join sep r
  end.

(** [s === t] *)
Definition strictEq (s t : string) : bool := bool_decide (s = t).

(** [x === t] where [x] may be [undefined]. *)
Definition strictEqOpt (x : option string) (t : string) : bool :=
  bool_decide (x = Some t).

End JS.

(** ** The spreadsheet *)

(** A row is the array of its cell values; a cell that was never written
    reads as the empty string. *)
Abbreviation Row := (list string).

(** The ledger tab.  Row 1 carries the column headers
    [Timestamp | Email | Icon | Line 1 | Line 2 | Line 3 | Layout |
     Request ID | Status | Downloaded At] (set-up step 1 of the script);
    the request records follow from row 2 on. *)
Record Sheet := mkSheet {
  header : Row;
  records : list Row
}.

(** [data[i][k] || ''] *)
Definition cell (r : Row) (k : nat) : string :=
  JS.or (r !! k) "".

(** Writing column [k] (0-based) of a row; the grid grows with blank cells
    when the row was shorter. *)
Definition setCell (r : Row) (k : nat) (v : string) : Row :=
  if decide (k < length r) then <[k := v]> r
  else r ++ replicate (k - length r) "" ++ [v].

(** Writing cell ([k]) of the [i]-th row of a block of rows; blank rows are
    added when the block was shorter. *)
Definition setRowCell (rows : list Row) (i k : nat) (v : string) : list Row :=
  if decide (i < length rows) then alter (λ r, setCell r k v) i rows
  else rows ++ replicate (i - length rows) [] ++ [setCell [] k v].

(** [sheet.getDataRange().getValues()]: all rows, header first. *)
Definition dataRange (s : Sheet) : list Row := header s :: records s.

(** [sheet.appendRow(r)]: a new last row. *)
Definition appendRowTo (s : Sheet) (r : Row) : Sheet :=
  mkSheet (header s) (records s ++ [r]).

(** [sheet.getRange(row, col).setValue(v)], [row] and [col] counted from 1.
    [None] when the range is invalid (row or column 0). *)
Definition setValueAt (s : Sheet) (row col : nat) (v : string) : option Sheet :=
  match row, col with
  | 0, _ | _, 0 => None
  | 1, S k => Some (mkSheet (setCell (header s) k v) (records s))
  | S (S i), S k => Some (mkSheet (header s) (setRowCell (records s) i k v))
  end.

(** ** The world of a script execution *)

(** Calls on the Apps Script services, in the order they are made. *)
Inductive Event :=
| GetValues
| AppendRow (r : Row)
| SetValue (row col : nat) (v : string)
| SendEmail (to subject body : string)
| Log (msg : string).

(** A calendar instant as [Date] holds it (UTC fields). *)
Record Date := mkDate {
  year : N; month : N; day : N;
  hours : N; minutes : N; seconds : N; millis : N
}.

Record World := mkWorld {
  (** the tab [getSheet()] returns: the one named [SHEET_NAME], else the
      first tab of the spreadsheet *)
  sheet : Sheet;
  (** successive results of [Math.random()], each a double in [0, 1) given
      by its numerator over [2^53] *)
  randoms : nat → N;
  (** successive readings of the clock by [new Date()] *)
  clocks : nat → Date;
  (** [MailApp]: the message of the exception [sendEmail] throws for a
      given mail, [None] when the mail is accepted *)
  mailer : string → string → string → option string;
  (** service calls made so far, oldest first *)
  trace : list Event
}.

(** A computation returns a value or throws an exception (its message). *)
Inductive Outcome (A : Type) :=
| Return (a : A)
| Throw (message : string).
Arguments Return {A} a.
Arguments Throw {A} message.

Definition Script (A : Type) : Type := World → Outcome A * World.

#[global] Instance Script_ret : MRet Script :=
  λ A a w, (Return a, w).

#[global] Instance Script_bind : MBind Script :=
  λ A B f m w,
    match m w with
    | (Return a, w') => f a w'
    | (Throw e, w') => (Throw e, w')
    end.

(** [try { body } catch (err) { handler(err.message) }] *)
Definition try_catch {A} (body : Script A) (handler : string → Script A) : Script A :=
  λ w,
    match body w with
    | (Return a, w') => (Return a, w')
    | (Throw e, w') => handler e w'
    end.

Definition emit (e : Event) (w : World) : World :=
  mkWorld (sheet w) (randoms w) (clocks w) (mailer w) (trace w ++ [e]).

Definition withSheet (s : Sheet) (w : World) : World :=
  mkWorld s (randoms w) (clocks w) (mailer w) (trace w).

Module SpreadsheetApp.

Definition getValues : Script (list Row) :=
  λ w, (Return (dataRange (sheet w)), emit GetValues w).

Definition appendRow (r : Row) : Script unit :=
  λ w, (Return tt, emit (AppendRow r) (withSheet (appendRowTo (sheet w) r) w)).

Definition setValue (row col : nat) (v : string) : Script unit :=
  λ w,
    match setValueAt (sheet w) row col v with
    | Some s => (Return tt, emit (SetValue row col v) (withSheet s w))
    | None => (Throw "The starting row or column of the range is too small.", w)
    end.

End SpreadsheetApp.

Module Math.

Definition TWO53 : N := 2 ^ 53.

(** [Math.random()]: consumes one value of the stream. *)
Definition random : Script N :=
  λ w, (Return (randoms w 0 mod TWO53)%N,
        mkWorld (sheet w) (λ n, randoms w (S n)) (clocks w) (mailer w) (trace w)).

(** [Math.floor(r * n)] for [r] a result of [Math.random()]. *)
Definition floor_times (r : N) (n : nat) : nat :=
  N.to_nat (r * N.of_nat n / TWO53).

End Math.

Module DateObj.

Definition digit (n : N) : ascii := ascii_of_N (48 + n mod 10).

Definition pad2 (n : N) : string :=
  String (digit (n / 10)) (String (digit n) EmptyString).

Definition pad3 (n : N) : string := String (digit (n / 100)) (pad2 n).

Definition pad4 (n : N) : string := String (digit (n / 1000)) (pad3 n).

(** [d.toISOString()]: [YYYY-MM-DDTHH:mm:ss.sssZ] (years 0 to 9999). *)
Definition toISOString (d : Date) : string :=
  pad4 (year d) +:+ "-" +:+ pad2 (month d) +:+ "-" +:+ pad2 (day d) +:+ "T" +:+
  pad2 (hours d) +:+ ":" +:+ pad2 (minutes d) +:+ ":" +:+ pad2 (seconds d) +:+
  "." +:+ pad3 (millis d) +:+ "Z".

(** [new Date()]: reads the clock. *)
Definition now : Script Date :=
  λ w, (Return (clocks w 0),
        mkWorld (sheet w) (randoms w) (λ n, clocks w (S n)) (mailer w) (trace w)).

End DateObj.

Module MailApp.

Definition sendEmail (to subject body : string) : Script unit :=
  λ w,
    match mailer w to subject body with
    | None => (Return tt, emit (SendEmail to subject body) w)
    | Some err => (Throw err, w)
    end.

End MailApp.

Module Logger.

Definition log (msg : string) : Script unit :=
  λ w, (Return tt, emit (Log msg) w).

End Logger.

Section Script.

(** The case mappings of the JavaScript engine. *)
Context {caseMapping : JS.CaseMapping}.

(** ** The script *)

(** Name of the sheet tab (default is first sheet) *)
Definition SHEET_NAME : string := "Requests".

(** Email address that receives notification when a new request comes in *)
Definition NOTIFY_EMAIL : string := "ochavisual@un.org".

(** The request parameters [params] that [handleRequest] hands to the
    actions ([e.parameter], or the parsed body of a POST); each property is a
    string or absent. *)
Record Params := mkParams {
  action : option string;
  email : option string;
  icon : option string;
  line1 : option string;
  line2 : option string;
  line3 : option string;
  layout : option string;
  requestId : option string
}.

(** The response objects the actions build. *)
Inductive Response :=
| Failure (error : string)
    (* { success: false, error } *)
| Submitted (requestId message : string)
    (* { success: true, requestId, message } *)
| StatusOf (status : string) (canDownload : bool)
    (* { success: true, status, canDownload } *)
| MayDownload (canDownload : bool).
    (* { success: true, canDownload } *)

Definition success (r : Response) : bool :=
  match r with Failure _ => false | _ => true end.

(** The messages of the script. *)
Definition SUBMITTED_MESSAGE : string :=
  "Request submitted. You will receive an email when approved.".
Definition ERR_SUBMIT_REQUIRED : string :=
  "Email, icon, and at least line 1 are required.".
Definition ERR_LOOKUP_REQUIRED : string :=
  "Request ID and email are required.".
Definition ERR_CHECK_NOT_FOUND : string :=
  "Request not found. Check your Request ID and email.".
Definition ERR_DOWNLOAD_NOT_FOUND : string :=
  "Request not found.".
Definition ERR_ALREADY_DOWNLOADED : string :=
  "This wordmark has already been downloaded. Contact ochavisual@un.org for another download.".
Definition ERR_NOT_APPROVED : string :=
  "This request is not yet approved.".

(** The alphabet of request ids: no ambiguous chars. *)
Definition chars : string := "ABCDEFGHJKLMNPQRSTUVWXYZ23456789".

(** The body of [for (let i = 0; i < 6; i++)], with [n] iterations left. *)
Fixpoint generateRequestId_loop (n : nat) (id : string) : Script string :=
  match n with
  | 0 => mret id
  | S n' =>
      r ← Math.random;
      generateRequestId_loop n'
        (id +:+ JS.charAt chars (Math.floor_times r (String.length chars)))
  end.

Definition generateRequestId : Script string :=
  generateRequestId_loop 6 "WM-".

(** The notification mail of [submitRequest]. *)
Definition dquote : string := String "034"%char EmptyString.

Definition notification_subject (requestId email : string) : string :=
  "Wordmark request " +:+ requestId +:+ " from " +:+ email.

Definition notification_body
    (requestId email icon layout line1 line2 line3 : string) : string :=
  JS.join (String "010"%char EmptyString)
    (filter (λ l, Is_true (JS.truthy l))
      [ "New wordmark request:";
        "";
        "Request ID: " +:+ requestId;
        "Email: " +:+ email;
        "Icon: " +:+ icon;
        "Layout: " +:+ layout +:+ " line(s)";
        "Line 1: " +:+ line1;
        (if JS.truthy line2 then "Line 2: " +:+ line2 else "");
        (if JS.truthy line3 then "Line 3: " +:+ line3 else "");
        "";
        "To approve, open the Google Sheet and change the Status column from " +:+
          dquote +:+ "Pending" +:+ dquote +:+ " to " +:+ dquote +:+ "Approved" +:+ dquote +:+ "." ]).

(** ACTION: submit — user submits a new wordmark request *)
Definition submitRequest (params : Params) : Script Response :=
  requestId ← generateRequestId;
  now ← DateObj.now;
  let timestamp := DateObj.toISOString now in
  let email := JS.trim (JS.or (email params) "") in
  let icon := JS.trim (JS.or (icon params) "") in
  let line1 := JS.trim (JS.or (line1 params) "") in
  let line2 := JS.trim (JS.or (line2 params) "") in
  let line3 := JS.trim (JS.or (line3 params) "") in
  let layout := JS.trim (JS.or (layout params) "1") in
  if negb (JS.truthy email) || negb (JS.truthy icon) || negb (JS.truthy line1) then
    mret (Failure ERR_SUBMIT_REQUIRED)
  else
    SpreadsheetApp.appendRow
      [timestamp; email; icon; line1; line2; line3; layout; requestId; "Pending"; ""];;
    try_catch
      (MailApp.sendEmail NOTIFY_EMAIL
         (notification_subject requestId email)
         (notification_body requestId email icon layout line1 line2 line3))
      (λ message, Logger.log ("Email notification failed: " +:+ message));;
    mret (Submitted requestId SUBMITTED_MESSAGE).

(** Whether row [row] carries the normalized pair [(requestId, email)]: the
    test [rowId === requestId && rowEmail === email] of both lookups. *)
Definition rowMatches (row : Row) (requestId email : string) : bool :=
  let rowId := JS.toUpperCase (JS.trim (cell row 7)) in
  let rowEmail := JS.toLowerCase (JS.trim (cell row 1)) in
  JS.strictEq rowId requestId && JS.strictEq rowEmail email.

(** The loop [for (let i = 1; i < data.length; i++)] of [checkStatus], on the
    rows still to visit. *)
Fixpoint checkStatus_loop (requestId email : string) (rows : list Row) : Response :=
  match rows with
  | [] => Failure ERR_CHECK_NOT_FOUND
  | row :: rest =>
      if rowMatches row requestId email then
        let status := JS.trim (cell row 8) in
        StatusOf status (JS.strictEq status "Approved")
      else checkStatus_loop requestId email rest
  end.

(** ACTION: check — user checks if their request is approved *)
Definition checkStatus (params : Params) : Script Response :=
  let requestId := JS.toUpperCase (JS.trim (JS.or (requestId params) "")) in
  let email := JS.toLowerCase (JS.trim (JS.or (email params) "")) in
  if negb (JS.truthy requestId) || negb (JS.truthy email) then
    mret (Failure ERR_LOOKUP_REQUIRED)
  else
    data ← SpreadsheetApp.getValues;
    mret (checkStatus_loop requestId email (drop 1 data)).

(** The loop of [markDownloaded]; [i] is the index in [data] of the first of
    the rows still to visit. *)
Fixpoint markDownloaded_loop (requestId email : string) (i : nat) (rows : list Row)
    : Script Response :=
  match rows with
  | [] => mret (Failure ERR_DOWNLOAD_NOT_FOUND)
  | row :: rest =>
      if rowMatches row requestId email then
        let status := JS.trim (cell row 8) in
        if JS.strictEq status "Downloaded" then
          mret (Failure ERR_ALREADY_DOWNLOADED)
        else if negb (JS.strictEq status "Approved") then
          mret (Failure ERR_NOT_APPROVED)
        else
          SpreadsheetApp.setValue (i + 1) 9 "Downloaded";;
          now ← DateObj.now;
          SpreadsheetApp.setValue (i + 1) 10 (DateObj.toISOString now);;
          mret (MayDownload true)
      else markDownloaded_loop requestId email (S i) rest
  end.

(** ACTION: download — marks the request as downloaded (one-time use) *)
Definition markDownloaded (params : Params) : Script Response :=
  let requestId := JS.toUpperCase (JS.trim (JS.or (requestId params) "")) in
  let email := JS.toLowerCase (JS.trim (JS.or (email params) "")) in
  if negb (JS.truthy requestId) || negb (JS.truthy email) then
    mret (Failure ERR_LOOKUP_REQUIRED)
  else
    data ← SpreadsheetApp.getValues;
    markDownloaded_loop requestId email 1 (drop 1 data).

(** Handle incoming requests (both GET and POST): dispatch on [action]; an
    exception becomes a failure response carrying its message. *)
Definition handleRequest (params : Params) : Script Response :=
  try_catch
    (let action := action params in
     if JS.strictEqOpt action "submit" then submitRequest params
     else if JS.strictEqOpt action "check" then checkStatus params
     else if JS.strictEqOpt action "download" then markDownloaded params
     else mret (Failure "Unknown action"))
    (λ message, mret (Failure message)).

(** The choice of the action in [handleRequest], inside its [try]. *)
Definition dispatch (params : Params) : Script Response :=
  let action := action params in
  if JS.strictEqOpt action "submit" then submitRequest params
  else if JS.strictEqOpt action "check" then checkStatus params
  else if JS.strictEqOpt action "download" then markDownloaded params
  else mret (Failure "Unknown action").

(** ** Vocabulary of the properties *)

(** The credential pair as both lookups normalize it. *)
Definition lookupId (params : Params) : string :=
  JS.toUpperCase (JS.trim (JS.or (requestId params) "")).

Definition lookupEmail (params : Params) : string :=
  JS.toLowerCase (JS.trim (JS.or (email params) "")).

(** The parameters of a [check] or [download] call. *)
Definition credentials (id mail : option string) : Params :=
  mkParams None mail None None None None None id.

(** The status and the download time of a record, as the script reads
    them. *)
Definition statusOf (row : Row) : string := JS.trim (cell row 8).
Definition downloadedAt (row : Row) : string := cell row 9.

(** First row of [rows] that carries the pair, with its index counted from
    [i]: what the scans of [checkStatus] and [markDownloaded] stop at. *)
Fixpoint locate (requestId email : string) (i : nat) (rows : list Row)
    : option (nat * Row) :=
  match rows with
  | [] => None
  | row :: rest =>
      if rowMatches row requestId email then Some (i, row)
      else locate requestId email (S i) rest
  end.

(** Record [i] of the sheet is the one the pair addresses: it carries the
    pair and no record before it does. *)
Definition addressed (s : Sheet) (requestId email : string) (i : nat) (row : Row) : Prop :=
  records s !! i = Some row ∧
  rowMatches row requestId email = true ∧
  ∀ j row', j < i → records s !! j = Some row' → rowMatches row' requestId email = false.

(** What [markDownloaded] does once it stands on the matching row [row] at
    index [i] of [data]. *)
Definition markDownloaded_found (i : nat) (row : Row) : Script Response :=
  let status := JS.trim (cell row 8) in
  if JS.strictEq status "Downloaded" then
    mret (Failure ERR_ALREADY_DOWNLOADED)
  else if negb (JS.strictEq status "Approved") then
    mret (Failure ERR_NOT_APPROVED)
  else
    SpreadsheetApp.setValue (i + 1) 9 "Downloaded";;
    now ← DateObj.now;
    SpreadsheetApp.setValue (i + 1) 10 (DateObj.toISOString now);;
    mret (MayDownload true).

(** The record a successful download leaves behind. *)
Definition downloadedRow (row : Row) (at_ : string) : Row :=
  setCell (setCell row 8 "Downloaded") 9 at_.

(** [s.includes(sub)] *)
Fixpoint includes (s sub : string) : bool :=
  String.prefix sub s ||
  match s with
  | EmptyString => false
  | String _ r => includes r sub
  end.

(** A submission that passes the presence checks of [submitRequest]. *)
Definition validSubmission (params : Params) : Prop :=
  JS.trim (JS.or (email params) "") ≠ "" ∧
  JS.trim (JS.or (icon params) "") ≠ "" ∧
  JS.trim (JS.or (line1 params) "") ≠ "".

(** The row [submitRequest] appends. *)
Definition submittedRow (params : Params) (timestamp requestId : string) : Row :=
  [ timestamp;
    JS.trim (JS.or (email params) "");
    JS.trim (JS.or (icon params) "");
    JS.trim (JS.or (line1 params) "");
    JS.trim (JS.or (line2 params) "");
    JS.trim (JS.or (line3 params) "");
    JS.trim (JS.or (layout params) "1");
    requestId; "Pending"; "" ].

(** Characters of the alphabet, as a list. *)
Definition alphabet : list ascii := String.list_ascii_of_string chars.

(** The pattern [WM-XXXXXX], each [X] from the alphabet [chars]. *)
Definition isRequestId (id : string) : Prop :=
  ∃ tail : string,
    id = "WM-" +:+ tail ∧
    String.length tail = 6 ∧
    Forall (λ c, c ∈ alphabet) (String.list_ascii_of_string tail).

(** The ledger invariant on download times. *)
Definition downloadInvariant (s : Sheet) : Prop :=
  ∀ row, row ∈ records s → downloadedAt row ≠ "" ↔ statusOf row = "Downloaded".

(** The world after a sequence of [check] calls. *)
Definition checkMany (calls : list Params) (w : World) : World :=
  foldl (λ w params, (checkStatus params w).2) w calls.

(** Row [row] carries the credential pair of [params]. *)
Definition carries (row : Row) (params : Params) : Prop :=
  JS.toUpperCase (JS.trim (cell row 7)) = lookupId params ∧
  JS.toLowerCase (JS.trim (cell row 1)) = lookupEmail params.

(** The same world with another mail service. *)
Definition withMailer (m : string → string → string → option string) (w : World) : World :=
  mkWorld (sheet w) (randoms w) (clocks w) m (trace w).

(** The world after [n] calls of [Math.random()]. *)
Definition drawn (n : nat) (w : World) : World :=
  mkWorld (sheet w) (λ k, randoms w (n + k)) (clocks w) (mailer w) (trace w).

(** The request id [generateRequestId] draws in world [w]. *)
Definition nextRequestId (w : World) : string :=
  match generateRequestId w with
  | (Return id, _) => id
  | (Throw _, _) => ""
  end.

(** The world [submitRequest] leaves when the presence checks fail: an id
    was drawn and the clock was read, nothing else. *)
Definition afterRejectedSubmit (w : World) : World :=
  mkWorld (sheet w) (λ k, randoms w (6 + k)) (λ n, clocks w (S n)) (mailer w) (trace w).

(** The notification attempt of [submitRequest] as it shows in the trace:
    the mail when it is accepted, the log line when sending throws. *)
Definition notificationEvent (params : Params) (w : World) : Event :=
  let id := nextRequestId w in
  let mail := JS.trim (JS.or (email params) "") in
  let subject := notification_subject id mail in
  let body :=
    notification_body id mail
      (JS.trim (JS.or (icon params) ""))
      (JS.trim (JS.or (layout params) "1"))
      (JS.trim (JS.or (line1 params) ""))
      (JS.trim (JS.or (line2 params) ""))
      (JS.trim (JS.or (line3 params) "")) in
  match mailer w NOTIFY_EMAIL subject body with
  | None => SendEmail NOTIFY_EMAIL subject body
  | Some err => Log ("Email notification failed: " +:+ err)
  end.

(** The world a valid [submitRequest] leaves. *)
Definition afterSubmit (params : Params) (w : World) : World :=
  let row := submittedRow params (DateObj.toISOString (clocks w 0)) (nextRequestId w) in
  mkWorld (appendRowTo (sheet w) row)
    (λ k, randoms w (6 + k)) (λ n, clocks w (S n)) (mailer w)
    (trace w ++ [AppendRow row; notificationEvent params w]).

(** ** Further vocabulary *)

(** The world after a sequence of requests. *)
Definition handleMany (calls : list Params) (w : World) : World :=
  foldl (λ w params, (handleRequest params w).2) w calls.

(** What [download] answers where [check] answers [r]. *)
Definition downloadAnswer (r : Response) : Response :=
  match r with
  | StatusOf status canDownload =>
      if canDownload then MayDownload true
      else if JS.strictEq status "Downloaded" then Failure ERR_ALREADY_DOWNLOADED
      else Failure ERR_NOT_APPROVED
  | Failure error =>
      if JS.strictEq error ERR_CHECK_NOT_FOUND then Failure ERR_DOWNLOAD_NOT_FOUND
      else Failure error
  | other => other
  end.

(** Calls on the sheet that read it or write one cell. *)
Definition readsOrWritesCell (e : Event) : Prop :=
  e = GetValues ∨ ∃ row col v, e = SetValue row col v.

(** The characters the alphabet leaves out as ambiguous. *)
Definition ambiguous : list ascii := ["0"; "O"; "1"; "I"]%char.

(** The id made of the symbols that [n] successive random values pick. *)
Fixpoint drawSymbols (n : nat) (rs : nat → N) : string :=
  match n with
  | 0 => ""
  | S n' =>
      JS.charAt chars (Math.floor_times (rs 0%nat mod Math.TWO53)%N (String.length chars))
      +:+ drawSymbols n' (λ k, rs (S k))
  end.

(** Position of a character in a string, the length when it is absent. *)
Fixpoint indexOfChar (c : ascii) (s : string) : nat :=
  match s with
  | EmptyString => 0
  | String x r => if Ascii.eqb x c then 0 else S (indexOfChar c r)
  end.

(** A random stream that makes [generateRequestId] spell [tail]. *)
Definition streamFor (tail : string) : nat → N :=
  λ k, match String.get k tail with
       | Some c => (N.of_nat (indexOfChar c chars) * 2 ^ 48)%N
       | None => 0%N
       end.


(** A byte that is an ASCII character other than white space. *)
Definition plainByte (c : ascii) : bool :=
  ASCII.isAscii c && negb (JS.isWhiteSpace1 c).

(** A byte that can start a white-space character. *)
Definition leadByte (c : ascii) : bool :=
  let x := N_of_ascii c in
  (JS.isWhiteSpace1 c || (x =? 194) || (x =? 225) || (x =? 226) || (x =? 227) || (x =? 239))%N.

(** The invariant on the download time of one record. *)
Definition recordInvariant (row : Row) : Prop :=
  downloadedAt row ≠ "" ↔ statusOf row = "Downloaded".

(** ** Two download calls *)





End Script.

(** ** Sample ledgers *)

Definition HEADER : Row :=
  [ "Timestamp"; "Email"; "Icon"; "Line 1"; "Line 2"; "Line 3"; "Layout";
    "Request ID"; "Status"; "Downloaded At" ].

(** A record of request WM-AAAAAA with the given email and status cells. *)
Definition sampleRecord (mail status : string) : Row :=
  [ "2026-03-14T09:26:53.589Z"; mail; "Health"; "OCHA"; ""; ""; "1";
    "WM-AAAAAA"; status; "" ].

Definition mailUp : string → string → string → option string :=
  λ _ _ _, None.

Definition mailDown : string → string → string → option string :=
  λ _ _ _, Some "Service invoked too many times for one day: email.".

(** A world over the given records: [Math.random()] keeps returning 0, so
    the next request id is WM-AAAAAA; the clock stands at a fixed instant. *)
Definition sampleWorld (rows : list Row)
    (m : string → string → string → option string) : World :=
  mkWorld (mkSheet HEADER rows) (λ _, 0%N)
    (λ _, mkDate 2026 3 15 10 0 0 0) m [].

Definition sampleSubmission : Params :=
  mkParams (Some "submit") (Some " Field@un.org ") (Some "Water") (Some "UNICEF")
    None None None None.

Definition sampleCredentials : Params :=
  credentials (Some " wm-aaaaaa") (Some "Field@UN.org ").

(** The no-break space U+00A0, in UTF-8. *)
Definition NBSP : string := String "194" (String "160" EmptyString).

(** A record set back to 'Approved' by hand after a download: it still
    carries the time of that download. *)
Definition resetRecord : Row :=
  [ "2026-03-14T09:26:53.589Z"; "field@un.org"; "Health"; "OCHA"; ""; ""; "1";
    "WM-AAAAAA"; "Approved"; "2026-03-14T11:00:00.000Z" ].

(** ** The web-app entry points *)

(** The event object [e] of a request: the contents of the body when the
    request is a POST ([e.postData.contents]), and the query-string
    parameters ([e.parameter]). *)
Record EventObject := mkEvent {
  postData : option string;
  parameter : Params
}.

Module WebApp.
Section Entry.

Context {caseMapping : JS.CaseMapping}.

(** [JSON.parse], with the reading of the string properties the actions
    use: the parameters, or the message of the exception thrown. *)
Variable JSON_parse : string → Outcome Params.

(** [handleRequest(e)]: the parameters come from the body when there is
    one, else from the query string; everything happens inside one [try]. *)
Definition handleRequest (e : EventObject) : Script Response :=
  try_catch
    (params ← match postData e with
              | Some contents => (λ w, (JSON_parse contents, w)) : Script Params
              | None => mret (parameter e)
              end;
     dispatch params)
    (λ message, mret (Failure message)).

Definition doPost (e : EventObject) : Script Response := handleRequest e.

Definition doGet (e : EventObject) : Script Response := handleRequest e.

End Entry.
End WebApp.

(** ** The case mappings on ASCII text *)

(** The case mappings that leave every non-ASCII byte as it is: on ASCII
    text they are those of JavaScript. *)
Definition asciiCase : JS.CaseMapping.
Proof.
  refine (JS.Build_CaseMapping ASCII.toUpper ASCII.toLower _ _ _).
  - intros s _. reflexivity.
  - intros s _. reflexivity.
  - intros [|c r] H; [reflexivity|discriminate H].
Defined.

(** ** Tactics *)

(** Unfolds the monad and the service calls in the goal. *)
Ltac script_unfold :=
  unfold mbind, mret, Script_bind, Script_ret, try_catch,
    SpreadsheetApp.getValues, SpreadsheetApp.appendRow, SpreadsheetApp.setValue,
    DateObj.now, Math.random, MailApp.sendEmail, Logger.log.

(** Turns the byte tests of white space into arithmetic. *)
Ltac byte_props :=
  unfold leadByte, JS.isWhiteSpace1, JS.isWhiteSpace2, JS.isWhiteSpace3; cbv zeta;
  repeat rewrite ?orb_true_iff, ?andb_true_iff, ?N.eqb_eq, ?N.leb_le;
  repeat match goal with
         | |- context [N_of_ascii ?a] => generalize (N_of_ascii a); intro
         end.


Section Properties.

Context {caseMapping : JS.CaseMapping}.

(** ** Properties of the string operations *)

Lemma truthy_false (s : string) : JS.truthy s = false ↔ s = "".
Proof. destruct s; simpl; split; congruence. Qed.

Lemma truthy_true (s : string) : JS.truthy s = true ↔ s ≠ "".
Proof. destruct s; simpl; split; congruence. Qed.

Lemma strictEq_true s t : JS.strictEq s t = true ↔ s = t.
Proof. unfold JS.strictEq. by rewrite bool_decide_eq_true. Qed.

Lemma strictEq_false s t : JS.strictEq s t = false ↔ s ≠ t.
Proof. unfold JS.strictEq. by rewrite bool_decide_eq_false. Qed.

Lemma strictEq_refl s : JS.strictEq s s = true.
Proof. by apply strictEq_true. Qed.

Lemma or_Some_empty s : JS.or (Some s) "" = s.
Proof. by destruct s. Qed.

Lemma string_app_cons x (a b : string) : String x a +:+ b = String x (a +:+ b).
Proof. reflexivity. Qed.

Lemma string_app_nil_r (a : string) : a +:+ "" = a.
Proof. induction a as [|x a IH]; [done|]. by rewrite string_app_cons, IH. Qed.

Lemma string_app_assoc (a b c : string) : (a +:+ b) +:+ c = a +:+ (b +:+ c).
Proof. induction a as [|x a IH]; [done|]. by rewrite !string_app_cons, IH. Qed.

Lemma string_app_length (a b : string) :
  String.length (a +:+ b) = String.length a + String.length b.
Proof. induction a as [|x a IH]; [done|]. rewrite string_app_cons. simpl. by rewrite IH. Qed.

Lemma string_app_chars (a b : string) :
  String.list_ascii_of_string (a +:+ b) =
  String.list_ascii_of_string a ++ String.list_ascii_of_string b.
Proof. induction a as [|x a IH]; [done|]. rewrite string_app_cons. simpl. by rewrite IH. Qed.

(** *** Trimming *)

Lemma trimStart_unfold s :
  JS.trimStart s =
  match JS.whiteSpacePrefix s with Some r => JS.trimStart r | None => s end.
Proof.
  destruct s as [|a [|b [|c r]]]; simpl; try done;
    repeat (match goal with |- context [if ?t then _ else _] => destruct t end; try done).
Qed.

Lemma whiteSpacePrefix_shorter s r :
  JS.whiteSpacePrefix s = Some r → String.length r < String.length s.
Proof.
  destruct s as [|a [|b [|c r']]]; simpl;
    repeat (match goal with |- context [if ?t then _ else _] => destruct t end);
    intros [=]; subst; simpl; lia.
Qed.

Lemma whiteSpacePrefix_app s r t :
  JS.whiteSpacePrefix s = Some r → JS.whiteSpacePrefix (s +:+ t) = Some (r +:+ t).
Proof.
  destruct s as [|a [|b [|c r']]]; rewrite ?string_app_cons; simpl;
    repeat (match goal with |- context [if ?t then _ else _] => destruct t end);
    intros [=]; subst; try done.
Qed.

(** Induction on the length of a string. *)
Lemma string_length_ind (P : string → Prop) :
  (∀ s, (∀ r, String.length r < String.length s → P r) → P s) → ∀ s, P s.
Proof.
  intros H s. remember (String.length s) as n eqn:Hn.
  revert s Hn. induction (lt_wf n) as [n _ IH]. intros s ->.
  apply H. intros r Hr. by eapply IH.
Qed.

Lemma trimStart_clean s : JS.whiteSpacePrefix (JS.trimStart s) = None.
Proof.
  induction s as [s IH] using string_length_ind.
  rewrite trimStart_unfold. destruct (JS.whiteSpacePrefix s) as [r|] eqn:E; [|done].
  apply IH. by apply whiteSpacePrefix_shorter.
Qed.

Lemma trimStart_fixed s : JS.whiteSpacePrefix s = None → JS.trimStart s = s.
Proof. intros H. by rewrite trimStart_unfold, H. Qed.

Lemma trimStart_idempotent s : JS.trimStart (JS.trimStart s) = JS.trimStart s.
Proof. apply trimStart_fixed, trimStart_clean. Qed.

Lemma blank_true s : JS.blank s = true ↔ JS.trimStart s = "".
Proof. unfold JS.blank. destruct (JS.trimStart s); split; congruence. Qed.

Lemma blank_false s : JS.blank s = false ↔ JS.trimStart s ≠ "".
Proof. unfold JS.blank. destruct (JS.trimStart s); split; congruence. Qed.

(** White space in front is absorbed. *)
Lemma trimStart_app_blank a s : JS.blank a = true → JS.trimStart (a +:+ s) = JS.trimStart s.
Proof.
  induction a as [a IH] using string_length_ind. intros Ha%blank_true.
  rewrite trimStart_unfold in Ha.
  destruct (JS.whiteSpacePrefix a) as [r|] eqn:E.
  - rewrite (trimStart_unfold (a +:+ s)), (whiteSpacePrefix_app _ _ _ E).
    apply IH; [by apply whiteSpacePrefix_shorter|by apply blank_true].
  - by subst a.
Qed.

Lemma trimEnd_blank s : JS.blank s = true → JS.trimEnd s = "".
Proof. destruct s as [|c r]; [done|]. cbn [JS.trimEnd]. by intros ->. Qed.

(** [trimEnd] cuts a blank end off. *)
Lemma trimEnd_split s : ∃ w, s = JS.trimEnd s +:+ w ∧ JS.blank w = true.
Proof.
  induction s as [|c r IH]; [by exists ""|]. cbn [JS.trimEnd].
  destruct (JS.blank (String c r)) eqn:E.
  - by exists (String c r).
  - destruct IH as (w & Hr & Hw). exists w. split; [|done].
    by rewrite string_app_cons, <- Hr.
Qed.

Lemma blank_app a b : JS.blank a = true → JS.blank b = true → JS.blank (a +:+ b) = true.
Proof.
  intros Ha Hb. apply blank_true. rewrite trimStart_app_blank by done. by apply blank_true.
Qed.

Lemma trimEnd_idempotent s : JS.trimEnd (JS.trimEnd s) = JS.trimEnd s.
Proof.
  induction s as [|c r IH]; [done|]. cbn [JS.trimEnd].
  destruct (JS.blank (String c r)) eqn:E; [done|].
  cbn [JS.trimEnd]. rewrite IH.
  destruct (JS.blank (String c (JS.trimEnd r))) eqn:E'; [|done].
  destruct (trimEnd_split r) as (w & Hr & Hw).
  rewrite Hr, <- string_app_cons, blank_app in E by done. done.
Qed.

Lemma whiteSpacePrefix_prefix u w :
  JS.whiteSpacePrefix (u +:+ w) = None → JS.whiteSpacePrefix u = None.
Proof.
  intros H. destruct (JS.whiteSpacePrefix u) as [r|] eqn:E; [|done].
  by rewrite (whiteSpacePrefix_app _ _ w E) in H.
Qed.

Lemma trim_idempotent s : JS.trim (JS.trim s) = JS.trim s.
Proof.
  unfold JS.trim. rewrite (trimStart_fixed (JS.trimEnd _)).
  - apply trimEnd_idempotent.
  - destruct (trimEnd_split (JS.trimStart s)) as (w & Hs & _).
    apply (whiteSpacePrefix_prefix _ w). rewrite <- Hs. apply trimStart_clean.
Qed.

(** *** Text without white space *)

Lemma whiteSpacePrefix_plain c r : plainByte c = true → JS.whiteSpacePrefix (String c r) = None.
Proof.
  unfold plainByte, ASCII.isAscii. intros [Ha Hw]%andb_true_iff.
  apply negb_true_iff in Hw. apply N.ltb_lt in Ha.
  simpl. rewrite Hw. unfold JS.isWhiteSpace2, JS.isWhiteSpace3.
  destruct r as [|b [|d r]]; [done| |].
  - destruct (N.eqb_spec (N_of_ascii c) 194); [lia|done].
  - destruct (N.eqb_spec (N_of_ascii c) 194); [lia|]. simpl.
    destruct (N.eqb_spec (N_of_ascii c) 225); [lia|].
    destruct (N.eqb_spec (N_of_ascii c) 226); [lia|].
    destruct (N.eqb_spec (N_of_ascii c) 227); [lia|].
    destruct (N.eqb_spec (N_of_ascii c) 239); [lia|]. done.
Qed.

Lemma trim_plain s :
  Forall (λ c, plainByte c = true) (String.list_ascii_of_string s) → JS.trim s = s.
Proof.
  intros H. unfold JS.trim.
  assert (JS.trimStart s = s) as ->.
  { destruct s as [|c r]; [done|]. apply trimStart_fixed, whiteSpacePrefix_plain.
    by apply Forall_cons in H as [? _]. }
  induction s as [|c r IH]; [done|]. apply Forall_cons in H as [Hc Hr].
  cbn [JS.trimEnd]. rewrite (proj2 (blank_false _)).
  - by rewrite IH.
  - by rewrite trimStart_fixed by (by apply whiteSpacePrefix_plain).
Qed.

(** *** White space behind *)

Lemma leadByte_range l :
  leadByte l = true → (N_of_ascii l < 128 ∨ 194 ≤ N_of_ascii l)%N.
Proof. byte_props. lia. Qed.

Lemma isWhiteSpace1_lead l : JS.isWhiteSpace1 l = true → leadByte l = true.
Proof. unfold leadByte. by intros ->. Qed.

Lemma isWhiteSpace2_lead a b : JS.isWhiteSpace2 a b = true → leadByte a = true.
Proof. byte_props. lia. Qed.

Lemma isWhiteSpace3_lead a b c : JS.isWhiteSpace3 a b c = true → leadByte a = true.
Proof. byte_props. lia. Qed.

Lemma isWhiteSpace2_second a b :
  JS.isWhiteSpace2 a b = true → (128 ≤ N_of_ascii b < 194)%N.
Proof. byte_props. lia. Qed.

Lemma isWhiteSpace3_middle a b c :
  JS.isWhiteSpace3 a b c = true → (128 ≤ N_of_ascii b < 194)%N.
Proof. byte_props. lia. Qed.

Lemma isWhiteSpace3_third a b c :
  JS.isWhiteSpace3 a b c = true → (128 ≤ N_of_ascii c < 194)%N.
Proof. byte_props. lia. Qed.

Lemma whiteSpacePrefix_lead l r x :
  JS.whiteSpacePrefix (String l r) = Some x → leadByte l = true.
Proof.
  simpl. destruct (JS.isWhiteSpace1 l) eqn:E1; [by intros _; apply isWhiteSpace1_lead|].
  destruct r as [|b [|c r]]; [done| |].
  - destruct (JS.isWhiteSpace2 l b) eqn:E2; [|done]. intros _. by eapply isWhiteSpace2_lead.
  - destruct (JS.isWhiteSpace2 l b) eqn:E2; [by intros _; eapply isWhiteSpace2_lead|].
    destruct (JS.isWhiteSpace3 l b c) eqn:E3; [|done]. intros _. by eapply isWhiteSpace3_lead.
Qed.

Lemma lead_not_second a l : leadByte l = true → JS.isWhiteSpace2 a l = false.
Proof.
  intros H%leadByte_range. destruct (JS.isWhiteSpace2 a l) eqn:E; [|done].
  apply isWhiteSpace2_second in E. lia.
Qed.

Lemma lead_not_middle a l c : leadByte l = true → JS.isWhiteSpace3 a l c = false.
Proof.
  intros H%leadByte_range. destruct (JS.isWhiteSpace3 a l c) eqn:E; [|done].
  apply isWhiteSpace3_middle in E. lia.
Qed.

Lemma lead_not_third a b l : leadByte l = true → JS.isWhiteSpace3 a b l = false.
Proof.
  intros H%leadByte_range. destruct (JS.isWhiteSpace3 a b l) eqn:E; [|done].
  apply isWhiteSpace3_third in E. lia.
Qed.

(** White space put behind a string that starts with none forms no
    white-space character with its first bytes. *)
Lemma whiteSpacePrefix_app_blank x b :
  x ≠ "" → JS.whiteSpacePrefix x = None → JS.blank b = true →
  JS.whiteSpacePrefix (x +:+ b) = None.
Proof.
  intros Hx Hnone Hb. destruct b as [|l rest]; [by rewrite string_app_nil_r|].
  assert (leadByte l = true) as Hl.
  { apply blank_true in Hb. rewrite trimStart_unfold in Hb.
    destruct (JS.whiteSpacePrefix (String l rest)) eqn:E; [|done].
    by eapply whiteSpacePrefix_lead. }
  destruct x as [|a [|b' [|c x']]]; [done| | |].
  - simpl in Hnone |- *. destruct (JS.isWhiteSpace1 a); [done|].
    rewrite lead_not_second by done.
    destruct rest; [done|]. by rewrite lead_not_middle.
  - simpl in Hnone |- *. destruct (JS.isWhiteSpace1 a); [done|].
    destruct (JS.isWhiteSpace2 a b'); [done|]. by rewrite lead_not_third.
  - simpl in Hnone |- *. destruct (JS.isWhiteSpace1 a); [done|].
    destruct (JS.isWhiteSpace2 a b'); [done|]. by destruct (JS.isWhiteSpace3 a b' c).
Qed.

Lemma trimStart_app_behind s b :
  JS.trimStart s ≠ "" → JS.blank b = true →
  JS.trimStart (s +:+ b) = JS.trimStart s +:+ b.
Proof.
  induction s as [s IH] using string_length_ind. intros Hs Hb.
  rewrite (trimStart_unfold s) in Hs |- *.
  destruct (JS.whiteSpacePrefix s) as [r|] eqn:E.
  - rewrite (trimStart_unfold (s +:+ b)), (whiteSpacePrefix_app _ _ _ E).
    apply IH; [by apply whiteSpacePrefix_shorter|done..].
  - apply trimStart_fixed. by apply whiteSpacePrefix_app_blank.
Qed.

Lemma blank_app_behind s b : JS.blank b = true → JS.blank (s +:+ b) = JS.blank s.
Proof.
  intros Hb. destruct (JS.blank s) eqn:E.
  - by apply blank_app.
  - apply blank_false. apply blank_false in E.
    rewrite trimStart_app_behind by done.
    destruct (JS.trimStart s); [done|]. by rewrite string_app_cons.
Qed.

Lemma trimEnd_app_blank s b : JS.blank b = true → JS.trimEnd (s +:+ b) = JS.trimEnd s.
Proof.
  intros Hb. induction s as [|c r IH]; [by apply trimEnd_blank|].
  rewrite string_app_cons. cbn [JS.trimEnd].
  rewrite <- string_app_cons, blank_app_behind by done.
  by rewrite IH.
Qed.

(** White space around a string does not show after [trim]. *)
Lemma trim_padded a s b :
  JS.blank a = true → JS.blank b = true → JS.trim (a +:+ s +:+ b) = JS.trim s.
Proof.
  intros Ha Hb. unfold JS.trim. rewrite trimStart_app_blank by done.
  destruct (JS.blank s) eqn:Hs.
  - pose proof (blank_app _ _ Hs Hb) as Hsb. apply blank_true in Hs, Hsb. by rewrite Hs, Hsb.
  - apply blank_false in Hs. rewrite trimStart_app_behind by done.
    by apply trimEnd_app_blank.
Qed.

(** *** Case mappings *)

Lemma toUpperCase_of_empty : JS.toUpperCase "" = "".
Proof. by rewrite JS.toUpperCase_ascii. Qed.

Lemma toLowerCase_of_empty : JS.toLowerCase "" = "".
Proof. by rewrite JS.toLowerCase_ascii. Qed.

Lemma mapChars_fixed f s :
  Forall (λ c, f c = c) (String.list_ascii_of_string s) → ASCII.mapChars f s = s.
Proof.
  induction s as [|c r IH]; [done|]. cbn [ASCII.mapChars String.list_ascii_of_string].
  intros [Hc Hr]%Forall_cons. by rewrite Hc, IH.
Qed.

Lemma isText_chars s :
  Forall (λ c, ASCII.isAscii c = true) (String.list_ascii_of_string s) → ASCII.isText s = true.
Proof.
  induction s as [|c r IH]; [done|]. cbn [ASCII.isText String.list_ascii_of_string].
  intros [-> Hr]%Forall_cons. by apply IH.
Qed.

(** Upper-casing leaves ASCII text without lower-case letters as it is. *)
Lemma toUpperCase_fixed s :
  Forall (λ c, ASCII.isAscii c = true ∧ ASCII.isLower c = false)
    (String.list_ascii_of_string s) →
  JS.toUpperCase s = s.
Proof.
  intros H. rewrite JS.toUpperCase_ascii.
  - apply mapChars_fixed. eapply Forall_impl; [exact H|].
    intros c [_ Hc]. unfold ASCII.upperChar. by rewrite Hc.
  - apply isText_chars. eapply Forall_impl; [exact H|]. by intros c [? _].
Qed.
(** ** Cells and rows *)

Lemma cell_lookup (r : Row) k s : r !! k = Some s → cell r k = s.
Proof. unfold cell. intros ->. apply or_Some_empty. Qed.

Lemma cell_outside (r : Row) k : length r ≤ k → cell r k = "".
Proof. unfold cell. intros H. by rewrite lookup_ge_None_2. Qed.

Lemma cell_setCell_eq (r : Row) k v : cell (setCell r k v) k = v.
Proof.
  unfold setCell. apply cell_lookup. case_decide as Hk.
  - by apply list_lookup_insert_eq.
  - rewrite lookup_app_r by lia. rewrite lookup_app_r; rewrite length_replicate; [|lia].
    by replace (k - length r - (k - length r)) with 0 by lia.
Qed.

Lemma cell_setCell_ne (r : Row) k j v : j ≠ k → cell (setCell r k v) j = cell r j.
Proof.
  intros Hjk. unfold setCell. case_decide as Hk.
  - unfold cell. by rewrite list_lookup_insert_ne.
  - destruct (decide (j < length r)) as [Hj|Hj].
    + unfold cell. by rewrite lookup_app_l.
    + rewrite (cell_outside r j) by lia.
      destruct (decide (j < k)) as [Hlt|Hge].
      * apply cell_lookup. rewrite lookup_app_r by lia.
        rewrite lookup_app_l by (rewrite length_replicate; lia).
        apply lookup_replicate_2. lia.
      * apply cell_outside. rewrite !length_app, length_replicate. simpl. lia.
Qed.

Lemma rowMatches_setCell (r : Row) k v id mail :
  k ≠ 7 → k ≠ 1 → rowMatches (setCell r k v) id mail = rowMatches r id mail.
Proof. intros. unfold rowMatches. by rewrite !cell_setCell_ne. Qed.

Lemma rowMatches_downloadedRow (r : Row) t id mail :
  rowMatches (downloadedRow r t) id mail = rowMatches r id mail.
Proof. unfold downloadedRow. by rewrite !rowMatches_setCell. Qed.

Lemma rowMatches_true (r : Row) id mail :
  rowMatches r id mail = true ↔
  JS.toUpperCase (JS.trim (cell r 7)) = id ∧ JS.toLowerCase (JS.trim (cell r 1)) = mail.
Proof. unfold rowMatches. by rewrite andb_true_iff, !strictEq_true. Qed.

Lemma statusOf_downloadedRow (r : Row) t : statusOf (downloadedRow r t) = "Downloaded".
Proof.
  unfold statusOf, downloadedRow.
  by rewrite cell_setCell_ne, cell_setCell_eq.
Qed.

Lemma downloadedAt_downloadedRow (r : Row) t : downloadedAt (downloadedRow r t) = t.
Proof. apply cell_setCell_eq. Qed.

Lemma setRowCell_inside (rows : list Row) i k v (row : Row) :
  rows !! i = Some row → setRowCell rows i k v = <[i := setCell row k v]> rows.
Proof.
  intros Hi. unfold setRowCell.
  rewrite decide_True by (by eapply lookup_lt_Some).
  apply list_eq. intros j. destruct (decide (i = j)) as [->|Hne].
  - rewrite list_lookup_alter_eq, Hi. simpl. 
    symmetry. apply list_lookup_insert_eq. by eapply lookup_lt_Some.
  - by rewrite list_lookup_alter_ne, list_lookup_insert_ne.
Qed.

Lemma toISOString_nonempty d : DateObj.toISOString d ≠ "".
Proof. done. Qed.

(** ** The scans *)

Lemma locate_Some id mail i0 (rows : list Row) k row :
  locate id mail i0 rows = Some (k, row) ↔
  ∃ j, k = i0 + j ∧ rows !! j = Some row ∧ rowMatches row id mail = true ∧
       ∀ j' row', j' < j → rows !! j' = Some row' → rowMatches row' id mail = false.
Proof.
  revert i0. induction rows as [|r rest IH]; intros i0; simpl.
  - split; [done|]. by intros (j & _ & ? & _).
  - destruct (rowMatches r id mail) eqn:Hr.
    + split.
      * intros [= <- <-]. exists 0. split_and!; [lia|done|done|]. intros; lia.
      * intros (j & -> & Hj & Hm & Hfirst). destruct j as [|j].
        -- simpl in Hj. injection Hj as ->. f_equal. f_equal. lia.
        -- specialize (Hfirst 0 r). rewrite Hfirst in Hr; [done|lia|done].
    + rewrite IH. split.
      * intros (j & -> & Hj & Hm & Hfirst). exists (S j).
        split_and!; [lia|done|done|].
        intros [|j'] row' Hlt Hj'; simpl in Hj'.
        -- by injection Hj' as <-.
        -- eapply Hfirst; [|done]. lia.
      * intros (j & -> & Hj & Hm & Hfirst). destruct j as [|j].
        -- simpl in Hj. injection Hj as ->. congruence.
        -- exists j. split_and!; [lia|done|done|].
           intros j' row' Hlt Hj'. apply (Hfirst (S j')); [lia|done].
Qed.

Lemma locate_None id mail i0 (rows : list Row) :
  locate id mail i0 rows = None ↔
  ∀ row, row ∈ rows → rowMatches row id mail = false.
Proof.
  revert i0. induction rows as [|r rest IH]; intros i0; simpl.
  - split; [|done]. intros _ row Hin. by apply not_elem_of_nil in Hin.
  - destruct (rowMatches r id mail) eqn:Hr.
    + split; [done|]. intros H. rewrite H in Hr; [done|]. apply list_elem_of_here.
    + rewrite IH. split.
      * intros H row [->|Hin]%elem_of_cons; auto.
      * intros H row Hin. apply H. by apply list_elem_of_further.
Qed.

Lemma locate_addressed s id mail i row :
  addressed s id mail i row ↔ locate id mail 0 (records s) = Some (i, row).
Proof.
  rewrite locate_Some. unfold addressed. split.
  - intros (? & ? & ?). by exists i.
  - by intros (j & -> & ? & ? & ?).
Qed.

Lemma checkStatus_loop_locate id mail i0 (rows : list Row) :
  checkStatus_loop id mail rows =
  match locate id mail i0 rows with
  | Some (_, row) => StatusOf (statusOf row) (JS.strictEq (statusOf row) "Approved")
  | None => Failure ERR_CHECK_NOT_FOUND
  end.
Proof.
  revert i0. induction rows as [|r rest IH]; intros i0; simpl; [done|].
  destruct (rowMatches r id mail); [done|]. apply IH.
Qed.

Lemma markDownloaded_loop_locate id mail i0 (rows : list Row) w :
  markDownloaded_loop id mail i0 rows w =
  match locate id mail i0 rows with
  | Some (i, row) => markDownloaded_found i row w
  | None => (Return (Failure ERR_DOWNLOAD_NOT_FOUND), w)
  end.
Proof.
  revert i0. induction rows as [|r rest IH]; intros i0; simpl; [done|].
  destruct (rowMatches r id mail); [done|]. apply IH.
Qed.

(** Both actions, once past the presence check of the pair. *)
Lemma checkStatus_run params w :
  lookupId params ≠ "" → lookupEmail params ≠ "" →
  checkStatus params w =
  (Return (checkStatus_loop (lookupId params) (lookupEmail params) (records (sheet w))),
   emit GetValues w).
Proof.
  intros Hid Hmail. unfold checkStatus. fold (lookupId params) (lookupEmail params).
  apply truthy_true in Hid, Hmail. by rewrite Hid, Hmail.
Qed.

Lemma markDownloaded_run params w :
  lookupId params ≠ "" → lookupEmail params ≠ "" →
  markDownloaded params w =
  markDownloaded_loop (lookupId params) (lookupEmail params) 1 (records (sheet w))
    (emit GetValues w).
Proof.
  intros Hid Hmail. unfold markDownloaded. fold (lookupId params) (lookupEmail params).
  apply truthy_true in Hid, Hmail. by rewrite Hid, Hmail.
Qed.

Lemma lookup_required params :
  JS.trim (JS.or (requestId params) "") = "" ∨ JS.trim (JS.or (email params) "") = "" →
  negb (JS.truthy (lookupId params)) || negb (JS.truthy (lookupEmail params)) = true.
Proof.
  unfold lookupId, lookupEmail. intros [-> | ->].
  - by rewrite toUpperCase_of_empty.
  - by rewrite toLowerCase_of_empty, orb_true_r.
Qed.

(** The three outcomes of [markDownloaded] on the row it found. *)
Lemma markDownloaded_found_downloaded i row w :
  statusOf row = "Downloaded" →
  markDownloaded_found i row w = (Return (Failure ERR_ALREADY_DOWNLOADED), w).
Proof. unfold markDownloaded_found, statusOf. by intros ->. Qed.

Lemma markDownloaded_found_other i row w :
  statusOf row ≠ "Downloaded" → statusOf row ≠ "Approved" →
  markDownloaded_found i row w = (Return (Failure ERR_NOT_APPROVED), w).
Proof.
  unfold markDownloaded_found, statusOf. intros H1%strictEq_false H2%strictEq_false.
  by rewrite H1, H2.
Qed.

Lemma markDownloaded_found_approved i row w :
  statusOf row = "Approved" → records (sheet w) !! i = Some row →
  markDownloaded_found (S i) row w =
  (Return (MayDownload true),
   mkWorld
     (mkSheet (header (sheet w))
        (<[i := downloadedRow row (DateObj.toISOString (clocks w 0))]> (records (sheet w))))
     (randoms w) (λ n, clocks w (S n)) (mailer w)
     (trace w ++ [SetValue (S i + 1) 9 "Downloaded";
                  SetValue (S i + 1) 10 (DateObj.toISOString (clocks w 0))])).
Proof.
  unfold markDownloaded_found, statusOf. intros -> Hrow.
  replace (S i + 1) with (S (S i)) by lia.
  rewrite (proj2 (strictEq_false "Approved" "Downloaded")) by done.
  rewrite strictEq_refl.
  script_unfold. cbn -[DateObj.toISOString setRowCell].
  rewrite (setRowCell_inside _ _ _ _ row Hrow).
  cbn -[DateObj.toISOString setRowCell].
  erewrite setRowCell_inside by (apply list_lookup_insert_eq; by eapply lookup_lt_Some).
  rewrite list_insert_insert_eq. unfold emit, withSheet, downloadedRow. simpl.
  by rewrite <- app_assoc.
Qed.

(** ** Request ids *)

Lemma floor_times_bound r n : (r < Math.TWO53)%N → 0 < n → Math.floor_times r n < n.
Proof.
  intros Hr Hn. unfold Math.floor_times.
  assert (r * N.of_nat n / Math.TWO53 < N.of_nat n)%N; [|lia].
  apply N.Div0.div_lt_upper_bound. nia.
Qed.

(** Every index below 32 picks one character of the alphabet. *)
Lemma charAt_chars i :
  i < String.length chars →
  ∃ c, JS.charAt chars i = String c EmptyString ∧ c ∈ alphabet.
Proof.
  intros Hi. unfold JS.charAt.
  do 32 (destruct i as [|i]; [eexists; split; [reflexivity|]; unfold alphabet; simpl;
                               repeat first [apply list_elem_of_here | apply list_elem_of_further]|]).
  simpl in Hi. lia.
Qed.

Lemma generateRequestId_loop_run n id w :
  ∃ tail,
    generateRequestId_loop n id w = (Return (id +:+ tail), drawn n w) ∧
    String.length tail = n ∧
    Forall (λ c, c ∈ alphabet) (String.list_ascii_of_string tail).
Proof.
  revert id w. induction n as [|n IH]; intros id w.
  - exists "". split_and!; [|done|by constructor].
    simpl. unfold mret, Script_ret, drawn. rewrite string_app_nil_r. by destruct w.
  - cbn [generateRequestId_loop]. script_unfold.
    set (r := (randoms w 0 mod Math.TWO53)%N).
    destruct (charAt_chars (Math.floor_times r (String.length chars))) as (c & Hc & Hin).
    { apply floor_times_bound; [apply N.mod_lt; done | simpl; lia]. }
    rewrite Hc.
    destruct (IH (id +:+ String c "")
                (mkWorld (sheet w) (λ n, randoms w (S n)) (clocks w) (mailer w) (trace w)))
      as (tail & Hrun & Hlen & Hall).
    exists (String c tail). split_and!.
    + rewrite Hrun. by rewrite string_app_assoc.
    + simpl. by rewrite Hlen.
    + by constructor.
Qed.

Lemma generateRequestId_run w :
  generateRequestId w = (Return (nextRequestId w), drawn 6 w) ∧
  isRequestId (nextRequestId w).
Proof.
  unfold nextRequestId, generateRequestId.
  destruct (generateRequestId_loop_run 6 "WM-" w) as (tail & -> & Hlen & Hall).
  split; [done|]. by exists tail.
Qed.

(** Normalizing a request id leaves it as it is. *)
Lemma alphabet_plain c :
  c ∈ "W"%char :: "M"%char :: "-"%char :: alphabet →
  plainByte c = true ∧ ASCII.isAscii c = true ∧ ASCII.isLower c = false.
Proof.
  unfold alphabet. simpl. rewrite !elem_of_cons, elem_of_nil.
  intros H. repeat (destruct H as [->|H]; [by vm_compute|]). done.
Qed.

Lemma isRequestId_normal id :
  isRequestId id → JS.toUpperCase (JS.trim id) = id ∧ id ≠ "".
Proof.
  intros (tail & -> & _ & Hall). split; [|done].
  assert (Forall (λ c, plainByte c = true ∧ ASCII.isAscii c = true ∧ ASCII.isLower c = false)
            (String.list_ascii_of_string ("WM-" +:+ tail))) as Hplain.
  { cbn. repeat (constructor; [by vm_compute|]).
    eapply Forall_impl; [exact Hall|]. intros c Hc. apply alphabet_plain.
    by do 3 apply list_elem_of_further. }
  rewrite trim_plain by (eapply Forall_impl; [exact Hplain|]; by intros ? [? ?]).
  apply toUpperCase_fixed. eapply Forall_impl; [exact Hplain|]. by intros ? (_ & ? & ?).
Qed.
(** ** [submitRequest] *)

Lemma submitRequest_rejected params w :
  JS.trim (JS.or (email params) "") = "" ∨
  JS.trim (JS.or (icon params) "") = "" ∨
  JS.trim (JS.or (line1 params) "") = "" →
  submitRequest params w = (Return (Failure ERR_SUBMIT_REQUIRED), afterRejectedSubmit w).
Proof.
  intros H. unfold submitRequest.
  unfold mbind at 1. unfold Script_bind at 1.
  rewrite (proj1 (generateRequestId_run w)).
  assert (negb (JS.truthy (JS.trim (JS.or (email params) ""))) ||
          negb (JS.truthy (JS.trim (JS.or (icon params) ""))) ||
          negb (JS.truthy (JS.trim (JS.or (line1 params) ""))) = true) as Hcheck.
  { destruct H as [->|[->| ->]]; simpl; by rewrite ?orb_true_r. }
  script_unfold. cbn -[DateObj.toISOString JS.trim JS.or]. by rewrite Hcheck.
Qed.

Lemma submitRequest_accepted params w :
  validSubmission params →
  submitRequest params w =
  (Return (Submitted (nextRequestId w) SUBMITTED_MESSAGE), afterSubmit params w).
Proof.
  intros (He & Hi & Hl). unfold submitRequest.
  unfold mbind at 1. unfold Script_bind at 1.
  rewrite (proj1 (generateRequestId_run w)).
  apply truthy_true in He, Hi, Hl.
  script_unfold. cbn -[DateObj.toISOString JS.trim JS.or notification_body notification_subject].
  rewrite He, Hi, Hl.
  cbn -[DateObj.toISOString JS.trim JS.or notification_body notification_subject].
  unfold afterSubmit, notificationEvent, emit, withSheet, submittedRow.
  cbn -[DateObj.toISOString JS.trim JS.or notification_body notification_subject].
  destruct (mailer w _ _ _);
    cbn -[DateObj.toISOString JS.trim JS.or notification_body notification_subject];
    by rewrite <- app_assoc.
Qed.

(** ** [checkStatus] reads only *)

Lemma checkStatus_frame params w :
  sheet (checkStatus params w).2 = sheet w.
Proof.
  unfold checkStatus.
  destruct (negb _ || negb _); by script_unfold.
Qed.

Lemma checkStatus_result params w1 w2 :
  sheet w1 = sheet w2 → (checkStatus params w1).1 = (checkStatus params w2).1.
Proof.
  intros Hs. unfold checkStatus.
  destruct (negb _ || negb _); script_unfold; simpl; [done|]. by rewrite Hs.
Qed.

Lemma checkMany_frame calls w : sheet (checkMany calls w) = sheet w.
Proof.
  unfold checkMany. revert w. induction calls as [|p calls IH]; intros w; simpl; [done|].
  by rewrite IH, checkStatus_frame.
Qed.

(** C7. [check] never changes the ledger: after any sequence of [check]
    calls the sheet is the one before them, and a [check] repeated after
    them answers as it did before. *)
Theorem check_never_mutates (calls : list Params) (params : Params) (w : World) :
  sheet (checkMany calls w) = sheet w ∧
  (checkStatus params (checkMany calls w)).1 = (checkStatus params w).1.
Proof.
  split; [apply checkMany_frame|]. apply checkStatus_result, checkMany_frame.
Qed.

(** C10. When the trimmed request id or the trimmed email is empty, [check]
    and [download] answer 'Request ID and email are required.' and leave the
    world as it was: no service call is made, so the ledger is neither read
    nor written; the message differs from both not-found messages. *)
Theorem lookup_presence_check (params : Params) (w : World) :
  JS.trim (JS.or (requestId params) "") = "" ∨ JS.trim (JS.or (email params) "") = "" →
  checkStatus params w = (Return (Failure ERR_LOOKUP_REQUIRED), w) ∧
  markDownloaded params w = (Return (Failure ERR_LOOKUP_REQUIRED), w) ∧
  ERR_LOOKUP_REQUIRED = "Request ID and email are required." ∧
  ERR_LOOKUP_REQUIRED ≠ ERR_CHECK_NOT_FOUND ∧
  ERR_LOOKUP_REQUIRED ≠ ERR_DOWNLOAD_NOT_FOUND.
Proof.
  intros H%lookup_required. split_and!; try done.
  - unfold checkStatus. fold (lookupId params) (lookupEmail params). by rewrite H.
  - unfold markDownloaded. fold (lookupId params) (lookupEmail params). by rewrite H.
Qed.

(** C3. A submission whose trimmed email, icon or line 1 is empty is
    answered with the validation message, which names the three required
    fields; no row is appended and no service is called. *)
Theorem submit_validation (params : Params) (w : World) :
  JS.trim (JS.or (email params) "") = "" ∨
  JS.trim (JS.or (icon params) "") = "" ∨
  JS.trim (JS.or (line1 params) "") = "" →
  ∃ w',
    submitRequest params w = (Return (Failure ERR_SUBMIT_REQUIRED), w') ∧
    sheet w' = sheet w ∧
    trace w' = trace w ∧
    includes ERR_SUBMIT_REQUIRED "Email" = true ∧
    includes ERR_SUBMIT_REQUIRED "icon" = true ∧
    includes ERR_SUBMIT_REQUIRED "line 1" = true.
Proof.
  intros H. exists (afterRejectedSubmit w).
  split_and!; [by apply submitRequest_rejected|done..].
Qed.

(** ** Notification *)

Lemma generateRequestId_loop_withMailer m n id w :
  generateRequestId_loop n id (withMailer m w) =
  ((generateRequestId_loop n id w).1, withMailer m (generateRequestId_loop n id w).2).
Proof.
  revert id w. induction n as [|n IH]; intros id w; [done|].
  cbn [generateRequestId_loop]. script_unfold. cbn [randoms sheet clocks mailer trace withMailer].
  apply (IH _ (mkWorld _ _ _ _ _)).
Qed.

Lemma nextRequestId_withMailer m w : nextRequestId (withMailer m w) = nextRequestId w.
Proof.
  unfold nextRequestId, generateRequestId. rewrite generateRequestId_loop_withMailer.
  by destruct (generateRequestId_loop 6 "WM-" w) as [[id|e] w'].
Qed.

(** C8. A valid submission succeeds with its request id and appends its
    record whatever the mail service does: a failed send only shows as a log
    line in the trace, and with any other mail service, failing or not, the
    response and the sheet are the same. *)
Theorem submit_ignores_notification
    (params : Params) (w : World) (m : string → string → string → option string) :
  validSubmission params →
  (submitRequest params w).1 = Return (Submitted (nextRequestId w) SUBMITTED_MESSAGE) ∧
  records (sheet (submitRequest params w).2) =
    records (sheet w) ++
    [submittedRow params (DateObj.toISOString (clocks w 0)) (nextRequestId w)] ∧
  trace (submitRequest params w).2 =
    trace w ++
    [AppendRow (submittedRow params (DateObj.toISOString (clocks w 0)) (nextRequestId w));
     notificationEvent params w] ∧
  (submitRequest params (withMailer m w)).1 = (submitRequest params w).1 ∧
  sheet (submitRequest params (withMailer m w)).2 = sheet (submitRequest params w).2.
Proof.
  intros Hvalid. rewrite !submitRequest_accepted by done.
  cbn [fst snd]. rewrite nextRequestId_withMailer. by split_and!.
Qed.

(** ** Lookup by credential pair *)

Lemma no_record_carries params (rows : list Row) :
  (∀ row, row ∈ rows → rowMatches row (lookupId params) (lookupEmail params) = false) ↔
  (∀ row, row ∈ rows → ¬ carries row params).
Proof.
  unfold carries. split; intros H row Hin; specialize (H row Hin).
  - rewrite <- rowMatches_true. by rewrite H.
  - rewrite <- rowMatches_true in H. by destruct (rowMatches _ _ _).
Qed.

Lemma markDownloaded_found_not_missing i row w :
  (markDownloaded_found i row w).1 ≠ Return (Failure ERR_DOWNLOAD_NOT_FOUND).
Proof.
  unfold markDownloaded_found.
  destruct (JS.strictEq _ "Downloaded"); [done|].
  destruct (JS.strictEq _ "Approved"); [|done].
  cbn [negb]. script_unfold.
  destruct (setValueAt (sheet w) (i + 1) 9 "Downloaded"); [|done].
  cbn -[setValueAt DateObj.toISOString].
  by destruct (setValueAt _ (i + 1) 10 _).
Qed.

(** C2, as the script has it.  For a non-empty normalized pair, [check]
    and [download] answer not-found exactly when no record carries both the
    request id (trimmed, upper case) and the email (trimmed, lower case);
    any other answer comes from a record that carries both. *)
Theorem lookup_needs_both (params : Params) (w : World) :
  lookupId params ≠ "" → lookupEmail params ≠ "" →
  ((checkStatus params w).1 = Return (Failure ERR_CHECK_NOT_FOUND) ↔
     ∀ row, row ∈ records (sheet w) → ¬ carries row params) ∧
  ((markDownloaded params w).1 = Return (Failure ERR_DOWNLOAD_NOT_FOUND) ↔
     ∀ row, row ∈ records (sheet w) → ¬ carries row params).
Proof.
  intros Hid Hmail. rewrite <- no_record_carries.
  rewrite <- (locate_None _ _ 1).
  rewrite checkStatus_run, markDownloaded_run by done.
  rewrite (checkStatus_loop_locate _ _ 1), markDownloaded_loop_locate.
  destruct (locate _ _ 1 _) as [[i row]|]; cbn [fst]; split; split; try done.
  intros H. by apply markDownloaded_found_not_missing in H.
Qed.

(** ** One-time download *)

Lemma addressed_locate s id mail i row :
  addressed s id mail i row → locate id mail 1 (records s) = Some (S i, row).
Proof.
  intros (Hrow & Hm & Hfirst). apply locate_Some. exists i. by split_and!.
Qed.

Lemma addressed_after_download s id mail i row t :
  addressed s id mail i row →
  addressed (mkSheet (header s) (<[i := downloadedRow row t]> (records s)))
    id mail i (downloadedRow row t).
Proof.
  intros (Hrow & Hm & Hfirst). split_and!; cbn [records].
  - apply list_lookup_insert_eq. by eapply lookup_lt_Some.
  - by rewrite rowMatches_downloadedRow.
  - intros j row' Hj. rewrite list_lookup_insert_ne by lia. by apply Hfirst.
Qed.

(** C1, as the script has it.  When the record that a non-empty pair
    addresses (the first to carry it) has status 'Approved', [download]
    succeeds with [canDownload = true], sets the record's status to
    'Downloaded' and its download time to the clock's reading; the same call
    made again fails with the already-downloaded message, which differs from
    the not-found and not-approved messages. *)
Theorem download_once (params : Params) (w : World) (i : nat) (row : Row) :
  lookupId params ≠ "" → lookupEmail params ≠ "" →
  addressed (sheet w) (lookupId params) (lookupEmail params) i row →
  cell row 8 = "Approved" →
  ∃ w' row',
    markDownloaded params w = (Return (MayDownload true), w') ∧
    header (sheet w') = header (sheet w) ∧
    records (sheet w') = <[i := row']> (records (sheet w)) ∧
    cell row' 8 = "Downloaded" ∧
    cell row' 9 = DateObj.toISOString (clocks w 0) ∧
    (∀ k, k ≠ 8 → k ≠ 9 → cell row' k = cell row k) ∧
    (markDownloaded params w').1 = Return (Failure ERR_ALREADY_DOWNLOADED) ∧
    ERR_ALREADY_DOWNLOADED ≠ ERR_DOWNLOAD_NOT_FOUND ∧
    ERR_ALREADY_DOWNLOADED ≠ ERR_NOT_APPROVED.
Proof.
  intros Hid Hmail Haddr Hst.
  assert (statusOf row = "Approved") as Hstatus by (unfold statusOf; by rewrite Hst).
  set (t := DateObj.toISOString (clocks w 0)).
  eexists _, (downloadedRow row t). split_and!.
  - rewrite markDownloaded_run by done.
    rewrite markDownloaded_loop_locate, (addressed_locate _ _ _ _ _ Haddr).
    apply markDownloaded_found_approved; [done|]. apply Haddr.
  - done.
  - done.
  - unfold downloadedRow. by rewrite cell_setCell_ne, cell_setCell_eq.
  - apply cell_setCell_eq.
  - intros k H8 H9. unfold downloadedRow. by rewrite !cell_setCell_ne.
  - rewrite markDownloaded_run by done.
    rewrite markDownloaded_loop_locate.
    cbn [sheet emit]. change (clocks (emit GetValues w) 0) with (clocks w 0). fold t.
    rewrite (addressed_locate _ _ _ _ _ (addressed_after_download _ _ _ _ _ t Haddr)).
    rewrite markDownloaded_found_downloaded; [done|]. apply statusOf_downloadedRow.
  - done.
  - done.
Qed.

(** C6, as the script has it.  When the record that a non-empty pair
    addresses (the first to carry it) has status 'Pending' or 'Rejected',
    [download] fails with the not-approved message; the sheet is left as it
    was, and the only service call made is the read of the data range. *)
Theorem download_not_approved (params : Params) (w : World) (i : nat) (row : Row) :
  lookupId params ≠ "" → lookupEmail params ≠ "" →
  addressed (sheet w) (lookupId params) (lookupEmail params) i row →
  cell row 8 = "Pending" ∨ cell row 8 = "Rejected" →
  ∃ w',
    markDownloaded params w = (Return (Failure ERR_NOT_APPROVED), w') ∧
    sheet w' = sheet w ∧
    trace w' = trace w ++ [GetValues].
Proof.
  intros Hid Hmail Haddr Hst. exists (emit GetValues w). split_and!; [|done..].
  rewrite markDownloaded_run by done.
  rewrite markDownloaded_loop_locate, (addressed_locate _ _ _ _ _ Haddr).
  apply markDownloaded_found_other; unfold statusOf; by destruct Hst as [-> | ->].
Qed.

(** ** Submission followed by a check *)

Lemma lookupEmail_valid params : validSubmission params → lookupEmail params ≠ "".
Proof.
  intros (He & _ & _) H. unfold lookupEmail in H.
  by apply JS.toLowerCase_nonempty in H.
Qed.

Lemma submittedRow_carries params t id :
  isRequestId id → carries (submittedRow params t id) (credentials (Some id) (email params)).
Proof.
  intros Hid. unfold carries, lookupId, lookupEmail, credentials. cbn [requestId email].
  rewrite or_Some_empty.
  rewrite (cell_lookup (submittedRow params t id) 7 id) by done.
  rewrite (cell_lookup (submittedRow params t id) 1 (JS.trim (JS.or (email params) ""))) by done.
  by rewrite trim_idempotent.
Qed.

(** C4, as the script has it.  A valid submission succeeds with a request
    id of the form WM-XXXXXX, each X from the 32-symbol alphabet; when no
    record already in the ledger carries that id together with the same
    email, a check with that id and the same email then reports status
    'Pending' and [canDownload = false]. *)
Theorem submit_then_check (params : Params) (w : World) :
  validSubmission params →
  let id := nextRequestId w in
  ∃ w',
    submitRequest params w = (Return (Submitted id SUBMITTED_MESSAGE), w') ∧
    isRequestId id ∧
    ((∀ row, row ∈ records (sheet w) → ¬ carries row (credentials (Some id) (email params))) →
     (checkStatus (credentials (Some id) (email params)) w').1 =
       Return (StatusOf "Pending" false)).
Proof.
  intros Hvalid id. exists (afterSubmit params w). subst id.
  destruct (generateRequestId_run w) as [_ Hid].
  split_and!; [by apply submitRequest_accepted|done|]. intros Hfresh.
  set (q := credentials (Some (nextRequestId w)) (email params)).
  set (row := submittedRow params (DateObj.toISOString (clocks w 0)) (nextRequestId w)).
  pose proof (submittedRow_carries params (DateObj.toISOString (clocks w 0)) _ Hid) as Hrow.
  fold row q in Hrow.
  assert (lookupId q = nextRequestId w) as Hqid.
  { unfold lookupId, q, credentials. cbn [requestId]. rewrite or_Some_empty.
    by apply isRequestId_normal. }
  assert (lookupEmail q = lookupEmail params) as Hqmail by done.
  rewrite checkStatus_run.
  2: { rewrite Hqid. by apply isRequestId_normal. }
  2: { rewrite Hqmail. by apply lookupEmail_valid. }
  rewrite (checkStatus_loop_locate _ _ 0).
  assert (locate (lookupId q) (lookupEmail q) 0 (records (sheet (afterSubmit params w)))
          = Some (length (records (sheet w)), row)) as ->.
  { apply locate_Some. exists (length (records (sheet w))).
    cbn [afterSubmit sheet appendRowTo records].
    fold row. split_and!; [done| | |].
    - by rewrite list_lookup_middle.
    - by apply rowMatches_true.
    - intros j row' Hj Hrow'. rewrite lookup_app_l in Hrow' by done.
      apply no_record_carries with (row := row') in Hfresh; [done|].
      by eapply list_elem_of_lookup_2. }
  done.
Qed.

(** ** The effect of a request on the sheet *)

Lemma try_catch_world {A} (body : Script A) (f : string → A) w :
  (try_catch body (λ message, mret (f message)) w).2 = (body w).2.
Proof. unfold try_catch. by destruct (body w) as [[a|e] w']. Qed.

Lemma markDownloaded_sheet params w :
  sheet (markDownloaded params w).2 = sheet w ∨
  ∃ i row,
    records (sheet w) !! i = Some row ∧ statusOf row = "Approved" ∧
    sheet (markDownloaded params w).2 =
      mkSheet (header (sheet w))
        (<[i := downloadedRow row (DateObj.toISOString (clocks w 0))]> (records (sheet w))).
Proof.
  destruct (decide (lookupId params = "")) as [Hid|Hid].
  { left. unfold markDownloaded. fold (lookupId params). by rewrite Hid. }
  destruct (decide (lookupEmail params = "")) as [Hmail|Hmail].
  { left. unfold markDownloaded. fold (lookupId params) (lookupEmail params).
    rewrite Hmail. by rewrite orb_true_r. }
  rewrite markDownloaded_run, markDownloaded_loop_locate by done.
  destruct (locate _ _ 1 _) as [[k row]|] eqn:Hloc; [|by left].
  apply locate_Some in Hloc as (i & -> & Hrow & _). change (1 + i) with (S i).
  destruct (decide (statusOf row = "Downloaded")) as [Hd|Hd].
  { left. by rewrite markDownloaded_found_downloaded. }
  destruct (decide (statusOf row = "Approved")) as [Ha|Ha].
  - right. exists i, row. split_and!; [done..|].
    by rewrite (markDownloaded_found_approved i row (emit GetValues w)).
  - left. by rewrite markDownloaded_found_other.
Qed.

Lemma submitRequest_sheet params w :
  sheet (submitRequest params w).2 = sheet w ∨
  sheet (submitRequest params w).2 =
    appendRowTo (sheet w)
      (submittedRow params (DateObj.toISOString (clocks w 0)) (nextRequestId w)).
Proof.
  destruct (decide (JS.trim (JS.or (email params) "") = "")) as [He|He].
  { left. rewrite submitRequest_rejected; auto. }
  destruct (decide (JS.trim (JS.or (icon params) "") = "")) as [Hi|Hi].
  { left. rewrite submitRequest_rejected; auto. }
  destruct (decide (JS.trim (JS.or (line1 params) "") = "")) as [Hl|Hl].
  { left. rewrite submitRequest_rejected; auto. }
  right. by rewrite submitRequest_accepted.
Qed.

Lemma handleRequest_sheet params w :
  sheet (handleRequest params w).2 = sheet w ∨
  sheet (handleRequest params w).2 =
    appendRowTo (sheet w)
      (submittedRow params (DateObj.toISOString (clocks w 0)) (nextRequestId w)) ∨
  ∃ i row,
    records (sheet w) !! i = Some row ∧ statusOf row = "Approved" ∧
    sheet (handleRequest params w).2 =
      mkSheet (header (sheet w))
        (<[i := downloadedRow row (DateObj.toISOString (clocks w 0))]> (records (sheet w))).
Proof.
  unfold handleRequest. rewrite try_catch_world.
  destruct (JS.strictEqOpt _ "submit").
  { destruct (submitRequest_sheet params w); auto. }
  destruct (JS.strictEqOpt _ "check").
  { left. apply checkStatus_frame. }
  destruct (JS.strictEqOpt _ "download").
  { destruct (markDownloaded_sheet params w); auto. }
  by left.
Qed.

(** ** The decision to grant a download is taken on the snapshot *)

(** [markDownloaded] decides on the rows [getValues] returned: once the
    snapshot shows the addressed record as 'Approved', the writes are made
    and the download is granted, whatever the sheet holds by then. *)
Remark markDownloaded_decides_on_snapshot
    (id mail : string) (rows : list Row) (i : nat) (row : Row) (w : World) :
  locate id mail 1 rows = Some (S i, row) →
  statusOf row = "Approved" →
  (markDownloaded_loop id mail 1 rows w).1 = Return (MayDownload true).
Proof.
  intros Hloc Hst. rewrite markDownloaded_loop_locate, Hloc.
  unfold markDownloaded_found. fold (statusOf row). rewrite Hst.
  rewrite (proj2 (strictEq_false "Approved" "Downloaded")) by done.
  rewrite strictEq_refl. replace (S i + 1) with (S (S i)) by lia.
  by script_unfold.
Qed.

(** ** The actions never throw *)

Lemma submitRequest_returns params w : ∃ r, (submitRequest params w).1 = Return r.
Proof.
  destruct (decide (JS.trim (JS.or (email params) "") = "")) as [He|He].
  { rewrite submitRequest_rejected; eauto. }
  destruct (decide (JS.trim (JS.or (icon params) "") = "")) as [Hi|Hi].
  { rewrite submitRequest_rejected; eauto. }
  destruct (decide (JS.trim (JS.or (line1 params) "") = "")) as [Hl|Hl].
  { rewrite submitRequest_rejected; eauto. }
  rewrite submitRequest_accepted by done. eauto.
Qed.

Lemma checkStatus_returns params w : ∃ r, (checkStatus params w).1 = Return r.
Proof.
  unfold checkStatus. destruct (negb _ || negb _); script_unfold; simpl; eauto.
Qed.

Lemma markDownloaded_returns params w : ∃ r, (markDownloaded params w).1 = Return r.
Proof.
  destruct (decide (lookupId params = "")) as [Hid|Hid].
  { unfold markDownloaded. fold (lookupId params). rewrite Hid. simpl. eauto. }
  destruct (decide (lookupEmail params = "")) as [Hmail|Hmail].
  { unfold markDownloaded. fold (lookupId params) (lookupEmail params).
    rewrite Hmail, orb_true_r. simpl. eauto. }
  rewrite markDownloaded_run, markDownloaded_loop_locate by done.
  destruct (locate _ _ 1 _) as [[k row]|] eqn:Hloc; [|simpl; eauto].
  apply locate_Some in Hloc as (i & -> & Hrow & _). change (1 + i) with (S i).
  destruct (decide (statusOf row = "Downloaded")) as [Hd|Hd].
  { rewrite markDownloaded_found_downloaded by done. simpl. eauto. }
  destruct (decide (statusOf row = "Approved")) as [Ha|Ha].
  - rewrite (markDownloaded_found_approved i row (emit GetValues w)) by done. simpl. eauto.
  - rewrite markDownloaded_found_other by done. simpl. eauto.
Qed.

Lemma dispatch_returns params w : ∃ r, (dispatch params w).1 = Return r.
Proof.
  unfold dispatch.
  destruct (JS.strictEqOpt _ "submit"); [apply submitRequest_returns|].
  destruct (JS.strictEqOpt _ "check"); [apply checkStatus_returns|].
  destruct (JS.strictEqOpt _ "download"); [apply markDownloaded_returns|].
  simpl. eauto.
Qed.

Lemma try_catch_returns {A} (body : Script A) handler w r :
  (body w).1 = Return r → try_catch body handler w = body w.
Proof. unfold try_catch. destruct (body w) as [[a|e] w']; [done|]. by intros [=]. Qed.

Lemma handleRequest_dispatch_eq params w : handleRequest params w = dispatch params w.
Proof.
  destruct (dispatch_returns params w) as [r Hr].
  by apply (try_catch_returns (dispatch params) _ w r).
Qed.


(** X2. [handleRequest] answers with the response of the action that
    [action] names and leaves the world that action leaves; the name is
    compared as it is (no trimming, no case folding), and any other or
    missing name is answered 'Unknown action' with the world untouched. *)
Theorem handleRequest_routes (params : Params) (w : World) :
  (action params = Some "submit" → handleRequest params w = submitRequest params w) ∧
  (action params = Some "check" → handleRequest params w = checkStatus params w) ∧
  (action params = Some "download" → handleRequest params w = markDownloaded params w) ∧
  (action params ≠ Some "submit" → action params ≠ Some "check" →
   action params ≠ Some "download" →
   handleRequest params w = (Return (Failure "Unknown action"), w)).
Proof.
  rewrite handleRequest_dispatch_eq. unfold dispatch, JS.strictEqOpt.
  split_and!.
  - intros ->. by rewrite bool_decide_eq_true_2.
  - intros ->. rewrite bool_decide_eq_false_2 by done. by rewrite bool_decide_eq_true_2.
  - intros ->. rewrite 2!bool_decide_eq_false_2 by done. by rewrite bool_decide_eq_true_2.
  - intros H1 H2 H3. by rewrite !bool_decide_eq_false_2.
Qed.

(** ** Download times *)

Lemma handleRequest_records params w :
  (∀ i row', records (sheet (handleRequest params w).2) !! i = Some row' →
     records (sheet w) !! i = Some row' ∨
     (∃ row, records (sheet w) !! i = Some row ∧ statusOf row = "Approved" ∧
             statusOf row' = "Downloaded" ∧ downloadedAt row' ≠ "") ∨
     (records (sheet w) !! i = None ∧ statusOf row' = "Pending" ∧ downloadedAt row' = "")) ∧
  (∀ i row, records (sheet w) !! i = Some row → downloadedAt row ≠ "" →
     ∃ row', records (sheet (handleRequest params w).2) !! i = Some row' ∧
             downloadedAt row' ≠ "").
Proof.
  destruct (handleRequest_sheet params w) as [-> | [-> | (k & r & Hr & Hst & ->)]].
  - split; [auto|eauto].
  - cbn [appendRowTo records]. split.
    + intros i row' [Hi|[Hge Hi]]%lookup_app_Some; [by left|].
      right; right. apply list_lookup_singleton_Some in Hi as [_ <-].
      split_and!; [by apply lookup_ge_None_2|done..].
    + intros i row Hi Hd. exists row. split; [|done]. by apply lookup_app_l_Some.
  - cbn [records]. split.
    + intros i row' Hi. destruct (decide (k = i)) as [<-|Hne].
      * rewrite list_lookup_insert_eq in Hi by (by eapply lookup_lt_Some).
        injection Hi as <-. right; left. exists r.
        rewrite statusOf_downloadedRow, downloadedAt_downloadedRow.
        split_and!; [done..|apply toISOString_nonempty].
      * rewrite list_lookup_insert_ne in Hi by done. by left.
    + intros i row Hi Hd. destruct (decide (k = i)) as [<-|Hne].
      * eexists. rewrite list_lookup_insert_eq by (by eapply lookup_lt_Some).
        split; [done|]. rewrite downloadedAt_downloadedRow. apply toISOString_nonempty.
      * exists row. by rewrite list_lookup_insert_ne.
Qed.

Lemma handleRequest_submit params w :
  action params = Some "submit" → handleRequest params w = submitRequest params w.
Proof.
  intros Ha. rewrite handleRequest_dispatch_eq. unfold dispatch, JS.strictEqOpt.
  by rewrite Ha, bool_decide_eq_true_2.
Qed.

Lemma handleRequest_download params w :
  action params = Some "download" → handleRequest params w = markDownloaded params w.
Proof.
  intros Ha. rewrite handleRequest_dispatch_eq. unfold dispatch, JS.strictEqOpt.
  rewrite Ha, 2!bool_decide_eq_false_2 by done. by rewrite bool_decide_eq_true_2.
Qed.

(** C5. What the requests do to download times, on any ledger.
    - A valid submit request appends one record, with status 'Pending' and
      an empty download time.
    - A download request on the addressed 'Approved' record sets, together,
      its status to 'Downloaded' and its download time to the clock's
      reading, which is not empty.
    - Whatever the request, each record afterwards is the record that was
      there, or an 'Approved' record turned 'Downloaded' with a download
      time, or a new 'Pending' record without one; so a record that has a
      download time exactly when it is 'Downloaded' still does, new records
      do, and a ledger where all records do keeps it.
    - No request empties a download time. *)
Theorem download_time_invariant (params : Params) (w : World) :
  (action params = Some "submit" → validSubmission params →
     ∃ row',
       records (sheet (handleRequest params w).2) = records (sheet w) ++ [row'] ∧
       statusOf row' = "Pending" ∧ downloadedAt row' = "") ∧
  (∀ i row,
     action params = Some "download" →
     lookupId params ≠ "" → lookupEmail params ≠ "" →
     addressed (sheet w) (lookupId params) (lookupEmail params) i row →
     statusOf row = "Approved" →
     ∃ row',
       records (sheet (handleRequest params w).2) !! i = Some row' ∧
       statusOf row' = "Downloaded" ∧
       downloadedAt row' = DateObj.toISOString (clocks w 0) ∧
       downloadedAt row' ≠ "") ∧
  (∀ i row', records (sheet (handleRequest params w).2) !! i = Some row' →
     records (sheet w) !! i = Some row' ∨
     (∃ row, records (sheet w) !! i = Some row ∧ statusOf row = "Approved" ∧
             statusOf row' = "Downloaded" ∧ downloadedAt row' ≠ "") ∨
     (records (sheet w) !! i = None ∧ statusOf row' = "Pending" ∧ downloadedAt row' = "")) ∧
  (∀ i row', records (sheet (handleRequest params w).2) !! i = Some row' →
     (∀ row, records (sheet w) !! i = Some row → recordInvariant row) →
     recordInvariant row') ∧
  (downloadInvariant (sheet w) → downloadInvariant (sheet (handleRequest params w).2)) ∧
  (∀ i row, records (sheet w) !! i = Some row → downloadedAt row ≠ "" →
     ∃ row', records (sheet (handleRequest params w).2) !! i = Some row' ∧
             downloadedAt row' ≠ "").
Proof.
  destruct (handleRequest_records params w) as [Hcases Hkept].
  assert (∀ i row', records (sheet (handleRequest params w).2) !! i = Some row' →
            (∀ row, records (sheet w) !! i = Some row → recordInvariant row) →
            recordInvariant row') as Hrecord.
  { intros i row' Hi Hbefore. unfold recordInvariant.
    destruct (Hcases i row' Hi) as [Hsame | [(row & _ & _ & -> & Hd) | (_ & Hst & ->)]].
    - by apply Hbefore.
    - done.
    - rewrite Hst. split; [done|discriminate]. }
  split_and!.
  - intros Ha Hvalid. rewrite handleRequest_submit, submitRequest_accepted by done.
    by eexists.
  - intros i row Ha Hid Hmail Haddr Hst. rewrite handleRequest_download by done.
    rewrite markDownloaded_run, markDownloaded_loop_locate by done.
    rewrite (addressed_locate _ _ _ _ _ Haddr).
    rewrite (markDownloaded_found_approved i row (emit GetValues w)) by (done || apply Haddr).
    cbn [snd sheet records emit clocks]. eexists. split_and!.
    + apply list_lookup_insert_eq. destruct Haddr as [Hrow _]. by eapply lookup_lt_Some.
    + apply statusOf_downloadedRow.
    + apply downloadedAt_downloadedRow.
    + rewrite downloadedAt_downloadedRow. apply toISOString_nonempty.
  - exact Hcases.
  - exact Hrecord.
  - intros Hinv row' [i Hi]%list_elem_of_lookup_1.
    apply (Hrecord i row' Hi). intros row Hrow. apply Hinv. by eapply list_elem_of_lookup_2.
  - exact Hkept.
Qed.
(** ** Two download calls for one record *)





(** ** Entry points *)

(** X3. [doGet] and [doPost] run the same handler.  Without a body the
    query-string parameters are served as by [handleRequest]; with a body
    the query string is ignored: a body that does not parse is answered by
    a failure carrying the parser's message, with the world untouched, and a
    body that parses is served as its parameters are.  No exception leaves
    the handler. *)
Theorem entry_points (parse : string → Outcome Params) (e : EventObject) (w : World) :
  WebApp.doGet parse e w = WebApp.doPost parse e w ∧
  (∃ r, (WebApp.doPost parse e w).1 = Return r) ∧
  (postData e = None → WebApp.doPost parse e w = handleRequest (parameter e) w) ∧
  (∀ contents message,
     postData e = Some contents → parse contents = Throw message →
     WebApp.doPost parse e w = (Return (Failure message), w)) ∧
  (∀ contents params,
     postData e = Some contents → parse contents = Return params →
     WebApp.doPost parse e w = handleRequest params w).
Proof.
  unfold WebApp.doGet, WebApp.doPost, WebApp.handleRequest.
  split_and!.
  - done.
  - unfold try_catch. script_unfold.
    destruct (postData e) as [contents|].
    + destruct (parse contents) as [params|message]; [|simpl; eauto].
      destruct (dispatch_returns params w) as [r Hr].
      destruct (dispatch params w) as [[a|err] w']; simpl; eauto.
    + destruct (dispatch_returns (parameter e) w) as [r Hr].
      destruct (dispatch (parameter e) w) as [[a|err] w']; simpl; eauto.
  - intros ->. rewrite handleRequest_dispatch_eq.
    destruct (dispatch_returns (parameter e) w) as [r Hr].
    unfold try_catch. script_unfold.
    by destruct (dispatch (parameter e) w) as [[a|err] w'].
  - intros contents message -> Hp. unfold try_catch. script_unfold. by rewrite Hp.
  - intros contents params -> Hp. rewrite handleRequest_dispatch_eq.
    unfold try_catch. script_unfold. rewrite Hp.
    destruct (dispatch_returns params w) as [r Hr].
    by destruct (dispatch params w) as [[a|err] w'].
Qed.

(** ** Normalization of the credential pair *)

(** Both lookups are functions of the normalized pair. *)
Lemma lookups_by_normalized_pair p q w :
  lookupId p = lookupId q → lookupEmail p = lookupEmail q →
  checkStatus p w = checkStatus q w ∧ markDownloaded p w = markDownloaded q w.
Proof.
  intros Hid Hmail. unfold checkStatus, markDownloaded.
  fold (lookupId p) (lookupEmail p) (lookupId q) (lookupEmail q).
  by rewrite Hid, Hmail.
Qed.

(** X4. The lookups ignore the white space around the request id and the
    email, whichever white-space characters and line terminators it is made
    of, and the letter case as far as upper-casing identifies the trimmed
    ids and lower-casing the trimmed emails: such a pair gets the same
    response from [check] and from [download], with the same effect on the
    world. *)
Theorem lookup_ignores_case_and_padding
    (id id' mail mail' a b c d : string) (w : World) :
  JS.toUpperCase (JS.trim id') = JS.toUpperCase (JS.trim id) →
  JS.toLowerCase (JS.trim mail') = JS.toLowerCase (JS.trim mail) →
  JS.blank a = true → JS.blank b = true → JS.blank c = true → JS.blank d = true →
  checkStatus (credentials (Some (a +:+ id' +:+ b)) (Some (c +:+ mail' +:+ d))) w =
    checkStatus (credentials (Some id) (Some mail)) w ∧
  markDownloaded (credentials (Some (a +:+ id' +:+ b)) (Some (c +:+ mail' +:+ d))) w =
    markDownloaded (credentials (Some id) (Some mail)) w.
Proof.
  intros Hid Hmail Ha Hb Hc Hd. apply lookups_by_normalized_pair.
  - unfold lookupId, credentials. cbn [requestId]. rewrite !or_Some_empty.
    by rewrite trim_padded.
  - unfold lookupEmail, credentials. cbn [email]. rewrite !or_Some_empty.
    by rewrite trim_padded.
Qed.

(** ** What [check] reports and what [download] does *)

(** X5. [download] answers as [check] announces: it succeeds exactly where
    [check] reports [canDownload = true], refuses as already downloaded
    where [check] reports 'Downloaded', as not approved where [check]
    reports any other status, and fails with the same presence or not-found
    condition where [check] fails. *)
Theorem download_follows_check (params : Params) (w : World) :
  ∃ r,
    (checkStatus params w).1 = Return r ∧
    (markDownloaded params w).1 = Return (downloadAnswer r).
Proof.
  destruct (decide (lookupId params = "")) as [Hid|Hid].
  { exists (Failure ERR_LOOKUP_REQUIRED).
    unfold checkStatus, markDownloaded. fold (lookupId params). by rewrite Hid. }
  destruct (decide (lookupEmail params = "")) as [Hmail|Hmail].
  { exists (Failure ERR_LOOKUP_REQUIRED).
    unfold checkStatus, markDownloaded. fold (lookupId params) (lookupEmail params).
    by rewrite Hmail, orb_true_r. }
  rewrite checkStatus_run, markDownloaded_run by done.
  rewrite (checkStatus_loop_locate _ _ 1), markDownloaded_loop_locate.
  destruct (locate _ _ 1 _) as [[k row]|] eqn:Hloc.
  2: { by exists (Failure ERR_CHECK_NOT_FOUND). }
  apply locate_Some in Hloc as (i & -> & Hrow & _). change (1 + i) with (S i).
  eexists. split; [done|]. cbn [downloadAnswer].
  destruct (decide (statusOf row = "Approved")) as [Ha|Ha].
  - rewrite (markDownloaded_found_approved i row (emit GetValues w)) by done.
    by rewrite Ha.
  - rewrite (proj2 (strictEq_false _ "Approved")) by done.
    destruct (decide (statusOf row = "Downloaded")) as [Hd|Hd].
    + rewrite markDownloaded_found_downloaded by done. by rewrite Hd.
    + rewrite markDownloaded_found_other by done.
      by rewrite (proj2 (strictEq_false _ "Downloaded")).
Qed.

(** ** What the requests leave of the ledger *)

Lemma markDownloaded_effect params w :
  markDownloaded params w = (Return (Failure ERR_LOOKUP_REQUIRED), w) ∨
  (∃ error, markDownloaded params w = (Return (Failure error), emit GetValues w)) ∨
  ∃ i row,
    addressed (sheet w) (lookupId params) (lookupEmail params) i row ∧
    statusOf row = "Approved" ∧
    markDownloaded params w =
      (Return (MayDownload true),
       mkWorld
         (mkSheet (header (sheet w))
            (<[i := downloadedRow row (DateObj.toISOString (clocks w 0))]> (records (sheet w))))
         (randoms w) (λ n, clocks w (S n)) (mailer w)
         (trace w ++ [GetValues; SetValue (S i + 1) 9 "Downloaded";
                      SetValue (S i + 1) 10 (DateObj.toISOString (clocks w 0))])).
Proof.
  destruct (decide (lookupId params = "")) as [Hid|Hid].
  { left. unfold markDownloaded. fold (lookupId params). by rewrite Hid. }
  destruct (decide (lookupEmail params = "")) as [Hmail|Hmail].
  { left. unfold markDownloaded. fold (lookupId params) (lookupEmail params).
    rewrite Hmail. by rewrite orb_true_r. }
  rewrite markDownloaded_run, markDownloaded_loop_locate by done.
  destruct (locate _ _ 1 _) as [[k row]|] eqn:Hloc; [|right; left; eauto].
  apply locate_Some in Hloc as (i & -> & Hrow & Hm & Hfirst). change (1 + i) with (S i).
  destruct (decide (statusOf row = "Downloaded")) as [Hd|Hd].
  { right; left. rewrite markDownloaded_found_downloaded by done. eauto. }
  destruct (decide (statusOf row = "Approved")) as [Ha|Ha].
  - right; right. exists i, row.
    rewrite (markDownloaded_found_approved i row (emit GetValues w)) by done.
    split_and!; [done..|]. cbn [emit sheet randoms clocks mailer trace].
    by rewrite <- app_assoc.
  - right; left. rewrite markDownloaded_found_other by done. eauto.
Qed.

Lemma cell_downloadedRow (row : Row) t k :
  k ≠ 8 → k ≠ 9 → cell (downloadedRow row t) k = cell row k.
Proof. intros. unfold downloadedRow. by rewrite !cell_setCell_ne. Qed.

(** X6. [download] touches at most one record and, in it, only the status
    and the download time (columns I and J): the header, the number of
    records and every other cell stay as they were; it reads the data range
    and writes single cells, and calls no other service. *)
Theorem download_touches_two_cells (params : Params) (w : World) :
  let w' := (markDownloaded params w).2 in
  header (sheet w') = header (sheet w) ∧
  length (records (sheet w')) = length (records (sheet w)) ∧
  (∃ i, ∀ j, j ≠ i → records (sheet w') !! j = records (sheet w) !! j) ∧
  (∀ j row, records (sheet w) !! j = Some row →
     ∃ row', records (sheet w') !! j = Some row' ∧
             ∀ k, k ≠ 8 → k ≠ 9 → cell row' k = cell row k) ∧
  (∃ t, trace w' = trace w ++ t ∧ ∀ e, e ∈ t → readsOrWritesCell e).
Proof.
  cbn zeta.
  destruct (markDownloaded_effect params w)
    as [-> | [[error ->] | (i & row & [Hrow _] & _ & ->)]]; cbn [snd].
  - split_and!; [done|done|by exists 0|eauto|].
    exists []. split; [by rewrite app_nil_r|]. by intros e ?%not_elem_of_nil.
  - cbn [emit sheet trace]. split_and!; [done|done|by exists 0|eauto|].
    exists [GetValues]. split; [done|]. intros e ->%list_elem_of_singleton. by left.
  - cbn [sheet header records trace]. split_and!.
    + done.
    + apply length_insert.
    + exists i. intros j Hj. by apply list_lookup_insert_ne.
    + intros j r Hr. destruct (decide (i = j)) as [<-|Hne].
      * eexists. rewrite list_lookup_insert_eq by (by eapply lookup_lt_Some).
        split; [done|]. assert (r = row) as -> by congruence.
        intros k H8 H9. by apply cell_downloadedRow.
      * exists r. by rewrite list_lookup_insert_ne.
    + eexists. split; [done|]. intros e He.
      repeat (apply elem_of_cons in He as [->|He]; [unfold readsOrWritesCell; eauto|]).
      by apply not_elem_of_nil in He.
Qed.

(** One request: each record stays, as it was or downloaded. *)
Lemma handleRequest_keeps params w i row :
  records (sheet w) !! i = Some row →
  header (sheet (handleRequest params w).2) = header (sheet w) ∧
  (records (sheet (handleRequest params w).2) !! i = Some row ∨
   statusOf row = "Approved" ∧
   records (sheet (handleRequest params w).2) !! i =
     Some (downloadedRow row (DateObj.toISOString (clocks w 0)))).
Proof.
  intros Hrow.
  destruct (handleRequest_sheet params w) as [-> | [-> | (k & r & Hr & Hst & ->)]].
  - auto.
  - cbn [appendRowTo header records]. split; [done|]. left. by apply lookup_app_l_Some.
  - cbn [header records]. split; [done|]. destruct (decide (k = i)) as [->|Hne].
    + right. assert (r = row) as -> by congruence. split; [done|].
      apply list_lookup_insert_eq. by eapply lookup_lt_Some.
    + left. by rewrite list_lookup_insert_ne.
Qed.

Lemma handleMany_cons p calls w :
  handleMany (p :: calls) w = handleMany calls (handleRequest p w).2.
Proof. done. Qed.

Lemma handleMany_keeps_cells (calls : list Params) (w : World) :
  header (sheet (handleMany calls w)) = header (sheet w) ∧
  ∀ i row, records (sheet w) !! i = Some row →
    ∃ row', records (sheet (handleMany calls w)) !! i = Some row' ∧
            ∀ k, k ≠ 8 → k ≠ 9 → cell row' k = cell row k.
Proof.
  revert w. induction calls as [|p calls IH]; intros w.
  { split; [done|]. intros i row Hrow. by exists row. }
  rewrite handleMany_cons. destruct (IH (handleRequest p w).2) as [Hh Hrec]. split.
  - rewrite Hh. destruct (handleRequest_sheet p w) as [-> | [-> | (k & r & _ & _ & ->)]]; done.
  - intros i row Hrow.
    destruct (handleRequest_keeps p w i row Hrow) as [_ [Hsame | [_ Hdown]]].
    + by apply Hrec.
    + destruct (Hrec _ _ Hdown) as (row' & Hrow' & Hcells).
      exists row'. split; [done|]. intros k H8 H9.
      rewrite Hcells by done. by apply cell_downloadedRow.
Qed.

Lemma handleMany_unwritten (calls : list Params) (w : World) (i : nat) (row : Row) :
  records (sheet w) !! i = Some row →
  statusOf row ≠ "Approved" →
  records (sheet (handleMany calls w)) !! i = Some row.
Proof.
  revert w. induction calls as [|p calls IH]; intros w Hrow Hst; [done|].
  rewrite handleMany_cons. apply IH; [|done].
  by destruct (handleRequest_keeps p w i row Hrow) as [_ [Hsame | [? _]]].
Qed.

(** X7. The ledger only grows: after any sequence of requests the header
    is the same and every record is still at its place, with all its cells
    other than the status and the download time as they were; no request
    deletes a record or rewrites what was submitted. *)
Theorem ledger_keeps_requests (calls : list Params) (w : World) :
  header (sheet (handleMany calls w)) = header (sheet w) ∧
  ∀ i row, records (sheet w) !! i = Some row →
    ∃ row', records (sheet (handleMany calls w)) !! i = Some row' ∧
            ∀ k, k ≠ 8 → k ≠ 9 → cell row' k = cell row k.
Proof. apply handleMany_keeps_cells. Qed.

(** X8. Only 'Approved' records are ever written: a record with any other
    status (Pending, Rejected, Downloaded, or anything an operator typed)
    is exactly the same after any sequence of requests. *)
Theorem only_approved_records_change (calls : list Params) (w : World) (i : nat) (row : Row) :
  records (sheet w) !! i = Some row →
  statusOf row ≠ "Approved" →
  records (sheet (handleMany calls w)) !! i = Some row.
Proof. apply handleMany_unwritten. Qed.

(** ** One-time use over time *)

Lemma rowMatches_cells (r r' : Row) id mail :
  (∀ k, k ≠ 8 → k ≠ 9 → cell r' k = cell r k) →
  rowMatches r' id mail = rowMatches r id mail.
Proof. intros H. unfold rowMatches. by rewrite !H. Qed.

Lemma addressed_persists calls w id mail i row :
  addressed (sheet w) id mail i row →
  statusOf row ≠ "Approved" →
  addressed (sheet (handleMany calls w)) id mail i row.
Proof.
  intros (Hrow & Hm & Hfirst) Hst. split_and!; [|done|].
  - by apply handleMany_unwritten.
  - intros j row' Hj Hrow'.
    assert (is_Some (records (sheet w) !! j)) as [r Hr].
    { apply lookup_lt_is_Some. apply lookup_lt_Some in Hrow. lia. }
    destruct (handleMany_keeps_cells calls w) as [_ Hkeep].
    destruct (Hkeep j r Hr) as (r' & Hr' & Hcells).
    assert (row' = r') as -> by congruence.
    rewrite (rowMatches_cells r r') by done. by eapply Hfirst.
Qed.

(** X9. A download that has succeeded stays the only one: after it,
    whatever requests arrive in between, a download with the same
    parameters is refused as already downloaded, and a check with them
    reports 'Downloaded' with [canDownload = false]. *)
Theorem download_stays_used (params : Params) (w : World) (calls : list Params) :
  (markDownloaded params w).1 = Return (MayDownload true) →
  (markDownloaded params (handleMany calls (markDownloaded params w).2)).1 =
    Return (Failure ERR_ALREADY_DOWNLOADED) ∧
  (checkStatus params (handleMany calls (markDownloaded params w).2)).1 =
    Return (StatusOf "Downloaded" false).
Proof.
  intros Hok.
  assert (lookupId params ≠ "" ∧ lookupEmail params ≠ "") as [Hid Hmail].
  { split; intros H; unfold markDownloaded in Hok;
      fold (lookupId params) (lookupEmail params) in Hok;
      rewrite H, ?orb_true_r in Hok; discriminate. }
  destruct (markDownloaded_effect params w)
    as [Hw | [[error Hw] | (i & row & Haddr & Hst & Hw)]];
    rewrite Hw in Hok |- *; [discriminate..|]. cbn [snd].
  set (t := DateObj.toISOString (clocks w 0)) in *.
  apply (addressed_after_download _ _ _ _ _ t) in Haddr.
  match goal with
  | |- context [handleMany calls ?w'] =>
      apply (addressed_persists calls w') in Haddr;
        [|by rewrite statusOf_downloadedRow]
  end.
  split.
  - rewrite markDownloaded_run, markDownloaded_loop_locate by done.
    rewrite (addressed_locate _ _ _ _ _ Haddr).
    rewrite markDownloaded_found_downloaded; [done|]. apply statusOf_downloadedRow.
  - rewrite checkStatus_run, (checkStatus_loop_locate _ _ 1) by done.
    rewrite (addressed_locate _ _ _ _ _ Haddr).
    by rewrite statusOf_downloadedRow.
Qed.

(** ** The status cell *)

(** X14. [check] reports the status cell of the addressed record as it
    is, trimmed, whatever token it holds, and [canDownload] is true exactly
    when that token is 'Approved', compared as it is (case matters). *)
Theorem check_reports_status (params : Params) (w : World) (i : nat) (row : Row) :
  lookupId params ≠ "" → lookupEmail params ≠ "" →
  addressed (sheet w) (lookupId params) (lookupEmail params) i row →
  (checkStatus params w).1 =
    Return (StatusOf (JS.trim (cell row 8)) (bool_decide (JS.trim (cell row 8) = "Approved"))).
Proof.
  intros Hid Hmail Haddr.
  rewrite checkStatus_run, (checkStatus_loop_locate _ _ 1) by done.
  by rewrite (addressed_locate _ _ _ _ _ Haddr).
Qed.

(** X15. [download] refuses as not approved every addressed record whose
    trimmed status is neither 'Approved' nor 'Downloaded' (an empty cell,
    'approved' in lower case, or any other token) and writes nothing. *)
Theorem download_refuses_other_status (params : Params) (w : World) (i : nat) (row : Row) :
  lookupId params ≠ "" → lookupEmail params ≠ "" →
  addressed (sheet w) (lookupId params) (lookupEmail params) i row →
  JS.trim (cell row 8) ≠ "Approved" → JS.trim (cell row 8) ≠ "Downloaded" →
  (markDownloaded params w).1 = Return (Failure ERR_NOT_APPROVED) ∧
  sheet (markDownloaded params w).2 = sheet w.
Proof.
  intros Hid Hmail Haddr Ha Hd.
  rewrite markDownloaded_run, markDownloaded_loop_locate by done.
  rewrite (addressed_locate _ _ _ _ _ Haddr).
  by rewrite markDownloaded_found_other.
Qed.

(** ** Mail *)

Lemma handleRequest_trace params w :
  ∃ t,
    trace (handleRequest params w).2 = trace w ++ t ∧
    ∀ to subject body, SendEmail to subject body ∈ t → to = NOTIFY_EMAIL.
Proof.
  rewrite handleRequest_dispatch_eq. unfold dispatch.
  destruct (JS.strictEqOpt _ "submit").
  { destruct (decide (validSubmission params)) as [Hv|Hv].
    - rewrite submitRequest_accepted by done. eexists. split; [done|].
      intros to subject body [?|Hin]%elem_of_cons; [done|].
      apply list_elem_of_singleton in Hin. unfold notificationEvent in Hin.
      destruct (mailer w _ _ _); [done|]. by injection Hin as ->.
    - rewrite submitRequest_rejected.
      + exists []. split; [by rewrite app_nil_r|]. by intros ??? ?%not_elem_of_nil.
      + unfold validSubmission in Hv.
        destruct (decide (JS.trim (JS.or (email params) "") = "")); [auto|].
        destruct (decide (JS.trim (JS.or (icon params) "") = "")); [auto|].
        destruct (decide (JS.trim (JS.or (line1 params) "") = "")); [auto|].
        by destruct Hv. }
  destruct (JS.strictEqOpt _ "check").
  { unfold checkStatus. destruct (negb _ || negb _); script_unfold; cbn.
    - exists []. split; [by rewrite app_nil_r|]. by intros ??? ?%not_elem_of_nil.
    - exists [GetValues]. split; [done|]. by intros ??? ?%list_elem_of_singleton. }
  destruct (JS.strictEqOpt _ "download").
  { destruct (markDownloaded_effect params w) as [-> | [[error ->] | (i & row & _ & _ & ->)]];
      cbn [snd emit trace].
    - exists []. split; [by rewrite app_nil_r|]. by intros ??? ?%not_elem_of_nil.
    - exists [GetValues]. split; [done|]. by intros ??? ?%list_elem_of_singleton.
    - eexists. split; [done|]. intros to subject body Hin.
      repeat (apply elem_of_cons in Hin as [?|Hin]; [done|]).
      by apply not_elem_of_nil in Hin. }
  exists []. split; [by rewrite app_nil_r|]. by intros ??? ?%not_elem_of_nil.
Qed.

(** X10. Mail only ever goes to the notification address: in the calls
    that any sequence of requests adds to the trace, every mail sent is
    addressed to [NOTIFY_EMAIL]; the submitter is never written to. *)
Theorem mail_only_to_operator (calls : list Params) (w : World) :
  ∃ t,
    trace (handleMany calls w) = trace w ++ t ∧
    ∀ to subject body, SendEmail to subject body ∈ t → to = NOTIFY_EMAIL.
Proof.
  revert w. induction calls as [|p calls IH]; intros w.
  { exists []. split; [by rewrite app_nil_r|]. by intros ??? ?%not_elem_of_nil. }
  rewrite handleMany_cons.
  destruct (handleRequest_trace p w) as (t1 & Ht1 & Hm1).
  destruct (IH (handleRequest p w).2) as (t2 & Ht2 & Hm2).
  exists (t1 ++ t2). split.
  - by rewrite Ht2, Ht1, app_assoc.
  - intros to subject body [?|?]%elem_of_app; eauto.
Qed.

(** ** More on request ids *)

Lemma alphabet_unambiguous c :
  c ∈ "W"%char :: "M"%char :: "-"%char :: alphabet → c ∉ ambiguous.
Proof.
  unfold alphabet, ambiguous. simpl. rewrite !elem_of_cons, elem_of_nil.
  intros H.
  repeat (destruct H as [->|H]; [intros [Hc|[Hc|[Hc|[Hc|[]]]]]; discriminate|]). done.
Qed.

(** X11. Every id [generateRequestId] returns has nine characters, none
    of them one of the ambiguous 0, O, 1, I, and is its own normal form:
    trimming and upper-casing leave it as it is, so the id a submitter is
    given is literally the key the lookups compare with. *)
Theorem request_id_shape (w : World) :
  String.length (nextRequestId w) = 9 ∧
  JS.toUpperCase (JS.trim (nextRequestId w)) = nextRequestId w ∧
  ∀ c, c ∈ String.list_ascii_of_string (nextRequestId w) → c ∉ ambiguous.
Proof.
  destruct (generateRequestId_run w) as [_ Hid].
  split_and!; [|by apply isRequestId_normal|].
  - destruct Hid as (tail & -> & Hlen & _). rewrite string_app_length, Hlen. done.
  - destruct Hid as (tail & -> & _ & Hall). intros c Hc.
    apply alphabet_unambiguous. rewrite string_app_chars in Hc.
    apply elem_of_app in Hc as [Hc|Hc].
    + simpl in Hc. rewrite !elem_of_cons, elem_of_nil in Hc.
      rewrite !elem_of_cons. destruct Hc as [->|[->|[->|[]]]]; auto.
    + do 3 apply list_elem_of_further. by eapply Forall_forall in Hall.
Qed.

(** X12. The symbol index [Math.floor(Math.random() * chars.length)] is
    unbiased: index [k] is picked by exactly the random values of the
    [k]-th of 32 equal intervals of [0, 1), that is by the numerators from
    [k * 2^48] up to [(k + 1) * 2^48], excluded. *)
Theorem symbol_index_uniform (r : N) (k : nat) :
  Math.floor_times r (String.length chars) = k ↔
  (N.of_nat k * 2 ^ 48 ≤ r < (N.of_nat k + 1) * 2 ^ 48)%N.
Proof.
  unfold Math.floor_times, Math.TWO53.
  change (N.of_nat (String.length chars)) with 32%N.
  change (2 ^ 53)%N with 9007199254740992%N. change (2 ^ 48)%N with 281474976710656%N.
  pose proof (N.div_mod (r * 32) 9007199254740992 ltac:(done)) as Hdm.
  pose proof (N.mod_lt (r * 32) 9007199254740992 ltac:(done)) as Hlt.
  set (q := (r * 32 / 9007199254740992)%N) in *.
  set (m := (r * 32 mod 9007199254740992)%N) in *.
  lia.
Qed.

Lemma generateRequestId_loop_symbols n id w :
  generateRequestId_loop n id w = (Return (id +:+ drawSymbols n (randoms w)), drawn n w).
Proof.
  revert id w. induction n as [|n IH]; intros id w.
  - simpl. unfold mret, Script_ret, drawn. rewrite string_app_nil_r. by destruct w.
  - cbn [generateRequestId_loop drawSymbols]. script_unfold.
    rewrite (IH _ (mkWorld _ _ _ _ _)). cbn [randoms]. by rewrite string_app_assoc.
Qed.

Lemma symbol_of_index c :
  c ∈ alphabet →
  JS.charAt chars
    (Math.floor_times ((N.of_nat (indexOfChar c chars) * 2 ^ 48) mod Math.TWO53)%N
       (String.length chars)) = String c EmptyString.
Proof.
  unfold alphabet. simpl. rewrite !elem_of_cons, elem_of_nil.
  intros H. repeat (destruct H as [->|H]; [by vm_compute|]). done.
Qed.

Lemma drawSymbols_streamFor tail :
  Forall (λ c, c ∈ alphabet) (String.list_ascii_of_string tail) →
  drawSymbols (String.length tail) (streamFor tail) = tail.
Proof.
  induction tail as [|c r IH]; [done|].
  intros [Hc Hr]%Forall_cons. cbn [String.length drawSymbols].
  change (streamFor (String c r) 0) with (N.of_nat (indexOfChar c chars) * 2 ^ 48)%N.
  rewrite symbol_of_index by done.
  change (λ k, streamFor (String c r) (S k)) with (streamFor r).
  by rewrite IH.
Qed.

(** X13. Every id of the pattern can be drawn: for each tail of six
    alphabet symbols there is a random stream, [streamFor tail], under
    which [generateRequestId] returns 'WM-' followed by that tail. *)
Theorem every_request_id_is_drawn
    (tail : string) (s : Sheet) (c : nat → Date)
    (m : string → string → string → option string) (t : list Event) :
  String.length tail = 6 →
  Forall (λ x, x ∈ alphabet) (String.list_ascii_of_string tail) →
  nextRequestId (mkWorld s (streamFor tail) c m t) = "WM-" +:+ tail.
Proof.
  intros Hlen Hall. unfold nextRequestId, generateRequestId.
  rewrite generateRequestId_loop_symbols. cbn [randoms].
  by rewrite <- Hlen, drawSymbols_streamFor.
Qed.

End Properties.

(** ** Worked instances, on ASCII text *)

#[local] Existing Instance asciiCase.

(** ** Worked examples *)

Example trim_example : JS.trim "  a b  " = "a b".
Proof. reflexivity. Qed.

Example trim_unicode_example :
  JS.trim (NBSP +:+ " a b" +:+ NBSP +:+ String "226" (String "128" (String "168" ""))) = "a b" ∧
  JS.trim NBSP = "" ∧
  JS.trim (String "195" (String "169" " ")) = String "195" (String "169" "").
Proof. by vm_compute. Qed.

Example normalize_example :
  lookupId sampleCredentials = "WM-AAAAAA" ∧ lookupEmail sampleCredentials = "field@un.org".
Proof. by vm_compute. Qed.

Example generateRequestId_example :
  nextRequestId (sampleWorld [] mailUp) = "WM-AAAAAA".
Proof. reflexivity. Qed.

Example generateRequestId_last_symbol :
  Math.floor_times (Math.TWO53 - 1) (String.length chars) = 31 ∧
  JS.charAt chars 31 = "9".
Proof. by vm_compute. Qed.

Example submit_example :
  (handleRequest sampleSubmission (sampleWorld [] mailUp)).1 =
    Return (Submitted "WM-AAAAAA" SUBMITTED_MESSAGE) ∧
  records (sheet (handleRequest sampleSubmission (sampleWorld [] mailUp)).2) =
    [ [ "2026-03-15T10:00:00.000Z"; "Field@un.org"; "Water"; "UNICEF"; ""; ""; "1";
        "WM-AAAAAA"; "Pending"; "" ] ].
Proof. by vm_compute. Qed.

Example unknown_action_example :
  (handleRequest sampleCredentials (sampleWorld [] mailUp)).1 =
    Return (Failure "Unknown action").
Proof. by vm_compute. Qed.

(** ** Instances *)

Lemma lookup_presence_check_witness :
  let params := credentials (Some "WM-AAAAAA") (Some NBSP) in
  let w := sampleWorld [sampleRecord "field@un.org" "Approved"] mailUp in
  checkStatus params w = (Return (Failure ERR_LOOKUP_REQUIRED), w) ∧
  markDownloaded params w = (Return (Failure ERR_LOOKUP_REQUIRED), w) ∧
  ERR_LOOKUP_REQUIRED = "Request ID and email are required." ∧
  ERR_LOOKUP_REQUIRED ≠ ERR_CHECK_NOT_FOUND ∧
  ERR_LOOKUP_REQUIRED ≠ ERR_DOWNLOAD_NOT_FOUND.
Proof.
  apply (lookup_presence_check (credentials (Some "WM-AAAAAA") (Some NBSP))).
  right. reflexivity.
Defined.

Lemma submit_validation_witness :
  let params :=
    mkParams (Some "submit") (Some "field@un.org") (Some NBSP) (Some "OCHA")
      None None None None in
  let w := sampleWorld [] mailUp in
  ∃ w',
    submitRequest params w = (Return (Failure ERR_SUBMIT_REQUIRED), w') ∧
    sheet w' = sheet w ∧
    trace w' = trace w ∧
    includes ERR_SUBMIT_REQUIRED "Email" = true ∧
    includes ERR_SUBMIT_REQUIRED "icon" = true ∧
    includes ERR_SUBMIT_REQUIRED "line 1" = true.
Proof.
  apply (submit_validation
           (mkParams (Some "submit") (Some "field@un.org") (Some NBSP) (Some "OCHA")
              None None None None)).
  right. left. reflexivity.
Defined.

Lemma sampleSubmission_valid : validSubmission sampleSubmission.
Proof. unfold validSubmission. split_and!; vm_compute; discriminate. Defined.

Lemma submit_ignores_notification_witness :
  let w := sampleWorld [] mailDown in
  (submitRequest sampleSubmission w).1 =
    Return (Submitted (nextRequestId w) SUBMITTED_MESSAGE) ∧
  records (sheet (submitRequest sampleSubmission w).2) =
    records (sheet w) ++
    [submittedRow sampleSubmission (DateObj.toISOString (clocks w 0)) (nextRequestId w)] ∧
  trace (submitRequest sampleSubmission w).2 =
    trace w ++
    [AppendRow (submittedRow sampleSubmission (DateObj.toISOString (clocks w 0))
                  (nextRequestId w));
     notificationEvent sampleSubmission w] ∧
  (submitRequest sampleSubmission (withMailer mailUp w)).1 =
    (submitRequest sampleSubmission w).1 ∧
  sheet (submitRequest sampleSubmission (withMailer mailUp w)).2 =
    sheet (submitRequest sampleSubmission w).2.
Proof.
  apply (submit_ignores_notification sampleSubmission (sampleWorld [] mailDown) mailUp).
  exact sampleSubmission_valid.
Defined.

Lemma sampleCredentials_id : lookupId sampleCredentials ≠ "".
Proof. vm_compute. discriminate. Defined.

Lemma sampleCredentials_email : lookupEmail sampleCredentials ≠ "".
Proof. vm_compute. discriminate. Defined.

Lemma sample_addressed status rest :
  addressed (mkSheet HEADER (sampleRecord "field@un.org" status :: rest))
    (lookupId sampleCredentials) (lookupEmail sampleCredentials) 0
    (sampleRecord "field@un.org" status).
Proof.
  split_and!; [reflexivity| |intros j row' Hj; inversion Hj].
  apply rowMatches_true. split; reflexivity.
Defined.

Lemma lookup_needs_both_witness :
  let w := sampleWorld [sampleRecord "other@un.org" "Approved"] mailUp in
  ((checkStatus sampleCredentials w).1 = Return (Failure ERR_CHECK_NOT_FOUND) ↔
     ∀ row, row ∈ records (sheet w) → ¬ carries row sampleCredentials) ∧
  ((markDownloaded sampleCredentials w).1 = Return (Failure ERR_DOWNLOAD_NOT_FOUND) ↔
     ∀ row, row ∈ records (sheet w) → ¬ carries row sampleCredentials).
Proof.
  apply (lookup_needs_both sampleCredentials
           (sampleWorld [sampleRecord "other@un.org" "Approved"] mailUp)).
  - exact sampleCredentials_id.
  - exact sampleCredentials_email.
Defined.

Lemma download_once_witness :
  let w := sampleWorld [sampleRecord "field@un.org" "Approved"] mailUp in
  let row := sampleRecord "field@un.org" "Approved" in
  ∃ w' row',
    markDownloaded sampleCredentials w = (Return (MayDownload true), w') ∧
    header (sheet w') = header (sheet w) ∧
    records (sheet w') = <[0 := row']> (records (sheet w)) ∧
    cell row' 8 = "Downloaded" ∧
    cell row' 9 = DateObj.toISOString (clocks w 0) ∧
    (∀ k, k ≠ 8 → k ≠ 9 → cell row' k = cell row k) ∧
    (markDownloaded sampleCredentials w').1 = Return (Failure ERR_ALREADY_DOWNLOADED) ∧
    ERR_ALREADY_DOWNLOADED ≠ ERR_DOWNLOAD_NOT_FOUND ∧
    ERR_ALREADY_DOWNLOADED ≠ ERR_NOT_APPROVED.
Proof.
  apply (download_once sampleCredentials
           (sampleWorld [sampleRecord "field@un.org" "Approved"] mailUp) 0
           (sampleRecord "field@un.org" "Approved")).
  - exact sampleCredentials_id.
  - exact sampleCredentials_email.
  - exact (sample_addressed "Approved" []).
  - reflexivity.
Defined.

Lemma download_not_approved_witness :
  let w := sampleWorld [sampleRecord "field@un.org" "Rejected"] mailUp in
  ∃ w',
    markDownloaded sampleCredentials w = (Return (Failure ERR_NOT_APPROVED), w') ∧
    sheet w' = sheet w ∧
    trace w' = trace w ++ [GetValues].
Proof.
  apply (download_not_approved sampleCredentials
           (sampleWorld [sampleRecord "field@un.org" "Rejected"] mailUp) 0
           (sampleRecord "field@un.org" "Rejected")).
  - exact sampleCredentials_id.
  - exact sampleCredentials_email.
  - exact (sample_addressed "Rejected" []).
  - right. reflexivity.
Defined.

Lemma submit_then_check_witness :
  let w := sampleWorld [sampleRecord "other@un.org" "Approved"] mailDown in
  ∃ w',
    submitRequest sampleSubmission w =
      (Return (Submitted "WM-AAAAAA" SUBMITTED_MESSAGE), w') ∧
    isRequestId "WM-AAAAAA" ∧
    (checkStatus (credentials (Some "WM-AAAAAA") (email sampleSubmission)) w').1 =
      Return (StatusOf "Pending" false).
Proof.
  destruct (submit_then_check sampleSubmission
              (sampleWorld [sampleRecord "other@un.org" "Approved"] mailDown)
              sampleSubmission_valid) as (w' & Hrun & Hid & Hcheck).
  exists w'. split_and!; [exact Hrun|exact Hid|]. apply Hcheck.
  intros row Hin [_ Hmail]. cbn [sampleWorld sheet records] in Hin.
  apply list_elem_of_singleton in Hin. subst row. vm_compute in Hmail. discriminate.
Defined.

Lemma download_time_invariant_witness :
  let download :=
    mkParams (Some "download") (Some "field@un.org") None None None None None
      (Some "WM-AAAAAA") in
  let w := sampleWorld [resetRecord] mailUp in
  (∃ row',
     records (sheet (handleRequest sampleSubmission w).2) = records (sheet w) ++ [row'] ∧
     statusOf row' = "Pending" ∧ downloadedAt row' = "") ∧
  (∃ row',
     records (sheet (handleRequest download w).2) !! 0 = Some row' ∧
     statusOf row' = "Downloaded" ∧
     downloadedAt row' = DateObj.toISOString (clocks w 0) ∧
     downloadedAt row' ≠ "") ∧
  (∃ row',
     records (sheet (handleRequest download w).2) !! 0 = Some row' ∧
     downloadedAt row' ≠ "").
Proof.
  cbn zeta.
  destruct (download_time_invariant sampleSubmission (sampleWorld [resetRecord] mailUp))
    as (Hsubmit & _).
  destruct (download_time_invariant
              (mkParams (Some "download") (Some "field@un.org") None None None None None
                 (Some "WM-AAAAAA"))
              (sampleWorld [resetRecord] mailUp))
    as (_ & Hdownload & _ & _ & _ & Hkept).
  split_and!.
  - apply Hsubmit; [reflexivity|exact sampleSubmission_valid].
  - apply (Hdownload 0 resetRecord).
    + reflexivity.
    + vm_compute. discriminate.
    + vm_compute. discriminate.
    + split_and!; [reflexivity| |intros j row' Hj; inversion Hj].
      apply rowMatches_true. split; reflexivity.
    + reflexivity.
  - apply (Hkept 0 resetRecord); [reflexivity|]. vm_compute. discriminate.
Defined.


(** ** Where the stated properties fail *)

(** C2. With the right request id and a blank email no record carries the
    pair, yet neither action answers not-found: both answer with the
    required-fields message. *)
Lemma lookup_blank_email_not_missing :
  let w := sampleWorld [sampleRecord "field@un.org" "Approved"] mailUp in
  let params := credentials (Some "WM-AAAAAA") (Some "  ") in
  (∀ row, row ∈ records (sheet w) → ¬ carries row params) ∧
  (checkStatus params w).1 = Return (Failure ERR_LOOKUP_REQUIRED) ∧
  (markDownloaded params w).1 = Return (Failure ERR_LOOKUP_REQUIRED) ∧
  (checkStatus params w).1 ≠ Return (Failure ERR_CHECK_NOT_FOUND) ∧
  (markDownloaded params w).1 ≠ Return (Failure ERR_DOWNLOAD_NOT_FOUND).
Proof.
  split_and!; try (by vm_compute).
  intros row Hin [_ Hmail]. cbn [sampleWorld sheet records] in Hin.
  apply list_elem_of_singleton in Hin. subst row. vm_compute in Hmail. discriminate.
Qed.

(** C4. When the id drawn is that of a record already in the ledger under
    the same email, the check after the submission reports the older
    record: here 'Approved' with [canDownload = true], not 'Pending'. *)
Lemma submit_then_check_collision :
  let w := sampleWorld [sampleRecord "field@un.org" "Approved"] mailUp in
  validSubmission sampleSubmission ∧
  (submitRequest sampleSubmission w).1 =
    Return (Submitted "WM-AAAAAA" SUBMITTED_MESSAGE) ∧
  (checkStatus (credentials (Some "WM-AAAAAA") (email sampleSubmission))
     (submitRequest sampleSubmission w).2).1 = Return (StatusOf "Approved" true) ∧
  (checkStatus (credentials (Some "WM-AAAAAA") (email sampleSubmission))
     (submitRequest sampleSubmission w).2).1 ≠ Return (StatusOf "Pending" false).
Proof.
  split_and!; [exact sampleSubmission_valid|by vm_compute..].
Qed.

(** C1. An 'Approved' record that stands behind another record with the
    same pair is not reached: the download is refused as not approved and
    the record keeps its status.  An 'Approved' record with a blank email
    cell is matched only by a blank email, which the presence check
    refuses. *)
Lemma download_approved_not_reached :
  let w := sampleWorld [sampleRecord "field@un.org" "Pending";
                        sampleRecord "field@un.org" "Approved"] mailUp in
  let blank := sampleWorld [sampleRecord "" "Approved"] mailUp in
  let noEmail := credentials (Some "WM-AAAAAA") (Some "") in
  (records (sheet w) !! 1 = Some (sampleRecord "field@un.org" "Approved") ∧
   carries (sampleRecord "field@un.org" "Approved") sampleCredentials ∧
   (markDownloaded sampleCredentials w).1 = Return (Failure ERR_NOT_APPROVED) ∧
   sheet (markDownloaded sampleCredentials w).2 = sheet w) ∧
  (records (sheet blank) !! 0 = Some (sampleRecord "" "Approved") ∧
   carries (sampleRecord "" "Approved") noEmail ∧
   (markDownloaded noEmail blank).1 = Return (Failure ERR_LOOKUP_REQUIRED)).
Proof. by vm_compute. Qed.

(** C6. A 'Pending' record that stands behind an 'Approved' record with the
    same pair: the download succeeds, on the record in front, and the sheet
    is written.  A 'Pending' record with a blank email cell is matched only
    by a blank email, and the answer is the required-fields message. *)
Lemma download_pending_not_reached :
  let w := sampleWorld [sampleRecord "field@un.org" "Approved";
                        sampleRecord "field@un.org" "Pending"] mailUp in
  let blank := sampleWorld [sampleRecord "" "Pending"] mailUp in
  let noEmail := credentials (Some "WM-AAAAAA") (Some "") in
  (records (sheet w) !! 1 = Some (sampleRecord "field@un.org" "Pending") ∧
   carries (sampleRecord "field@un.org" "Pending") sampleCredentials ∧
   (markDownloaded sampleCredentials w).1 = Return (MayDownload true) ∧
   sheet (markDownloaded sampleCredentials w).2 ≠ sheet w) ∧
  (records (sheet blank) !! 0 = Some (sampleRecord "" "Pending") ∧
   carries (sampleRecord "" "Pending") noEmail ∧
   (markDownloaded noEmail blank).1 = Return (Failure ERR_LOOKUP_REQUIRED) ∧
   ERR_LOOKUP_REQUIRED ≠ ERR_NOT_APPROVED).
Proof. by vm_compute. Qed.


Lemma lookup_ignores_case_and_padding_witness :
  let w := sampleWorld [sampleRecord "field@un.org" "Approved"] mailUp in
  checkStatus (credentials (Some (NBSP +:+ "wm-aaaaaa" +:+ "  "))
                 (Some ("" +:+ "FIELD@UN.ORG" +:+ NBSP))) w =
    checkStatus (credentials (Some "WM-AAAAAA") (Some "field@un.org")) w ∧
  markDownloaded (credentials (Some (NBSP +:+ "wm-aaaaaa" +:+ "  "))
                    (Some ("" +:+ "FIELD@UN.ORG" +:+ NBSP))) w =
    markDownloaded (credentials (Some "WM-AAAAAA") (Some "field@un.org")) w.
Proof.
  apply (lookup_ignores_case_and_padding
           "WM-AAAAAA" "wm-aaaaaa" "field@un.org" "FIELD@UN.ORG" NBSP "  " "" NBSP);
    reflexivity.
Defined.

(** ** Instances of the further properties *)

Lemma handleRequest_routes_witness :
  let w := sampleWorld [sampleRecord "field@un.org" "Approved"] mailUp in
  let check := mkParams (Some "check") (Some "field@un.org") None None None None None
                 (Some "WM-AAAAAA") in
  let shout := mkParams (Some "CHECK") (Some "field@un.org") None None None None None
                 (Some "WM-AAAAAA") in
  handleRequest check w = checkStatus check w ∧
  handleRequest shout w = (Return (Failure "Unknown action"), w).
Proof.
  split.
  - apply (handleRequest_routes
             (mkParams (Some "check") (Some "field@un.org") None None None None None
                (Some "WM-AAAAAA"))). reflexivity.
  - apply (handleRequest_routes
             (mkParams (Some "CHECK") (Some "field@un.org") None None None None None
                (Some "WM-AAAAAA"))); discriminate.
Defined.

Lemma entry_points_witness :
  let parse := λ contents : string,
    if bool_decide (contents = "{}") then Return (credentials None None)
    else Throw "Unexpected end of JSON input" in
  let w := sampleWorld [] mailUp in
  WebApp.doPost parse (mkEvent None sampleCredentials) w =
    handleRequest sampleCredentials w ∧
  WebApp.doPost parse (mkEvent (Some "{") sampleCredentials) w =
    (Return (Failure "Unexpected end of JSON input"), w) ∧
  WebApp.doPost parse (mkEvent (Some "{}") sampleCredentials) w =
    handleRequest (credentials None None) w.
Proof.
  cbn zeta. split_and!.
  - apply entry_points. reflexivity.
  - eapply entry_points; reflexivity.
  - eapply entry_points; reflexivity.
Defined.

Lemma download_touches_two_cells_witness :
  let w := sampleWorld [sampleRecord "field@un.org" "Approved"] mailUp in
  let w' := (markDownloaded sampleCredentials w).2 in
  ∃ row',
    records (sheet w') !! 0 = Some row' ∧
    ∀ k, k ≠ 8 → k ≠ 9 → cell row' k = cell (sampleRecord "field@un.org" "Approved") k.
Proof.
  cbn zeta.
  destruct (download_touches_two_cells sampleCredentials
              (sampleWorld [sampleRecord "field@un.org" "Approved"] mailUp))
    as (_ & _ & _ & Hcells & _).
  apply (Hcells 0). reflexivity.
Defined.

Lemma ledger_keeps_requests_witness :
  let w := sampleWorld [sampleRecord "field@un.org" "Approved"] mailDown in
  let calls := [sampleSubmission;
                mkParams (Some "download") (Some "field@un.org") None None None None None
                  (Some "WM-AAAAAA")] in
  ∃ row',
    records (sheet (handleMany calls w)) !! 0 = Some row' ∧
    ∀ k, k ≠ 8 → k ≠ 9 → cell row' k = cell (sampleRecord "field@un.org" "Approved") k.
Proof.
  cbn zeta.
  apply (ledger_keeps_requests
           [sampleSubmission;
            mkParams (Some "download") (Some "field@un.org") None None None None None
              (Some "WM-AAAAAA")]
           (sampleWorld [sampleRecord "field@un.org" "Approved"] mailDown)).
  reflexivity.
Defined.

Lemma only_approved_records_change_witness :
  let w := sampleWorld [sampleRecord "field@un.org" "Rejected"] mailDown in
  let calls := [sampleSubmission;
                mkParams (Some "download") (Some "field@un.org") None None None None None
                  (Some "WM-AAAAAA")] in
  records (sheet (handleMany calls w)) !! 0 = Some (sampleRecord "field@un.org" "Rejected").
Proof.
  cbn zeta.
  apply (only_approved_records_change
           [sampleSubmission;
            mkParams (Some "download") (Some "field@un.org") None None None None None
              (Some "WM-AAAAAA")]
           (sampleWorld [sampleRecord "field@un.org" "Rejected"] mailDown) 0).
  - reflexivity.
  - vm_compute. discriminate.
Defined.

Lemma download_stays_used_witness :
  let w := sampleWorld [sampleRecord "field@un.org" "Approved"] mailUp in
  (markDownloaded sampleCredentials
     (handleMany [sampleSubmission; sampleCredentials]
        (markDownloaded sampleCredentials w).2)).1 =
    Return (Failure ERR_ALREADY_DOWNLOADED) ∧
  (checkStatus sampleCredentials
     (handleMany [sampleSubmission; sampleCredentials]
        (markDownloaded sampleCredentials w).2)).1 =
    Return (StatusOf "Downloaded" false).
Proof.
  cbn zeta.
  apply (download_stays_used sampleCredentials
           (sampleWorld [sampleRecord "field@un.org" "Approved"] mailUp)
           [sampleSubmission; sampleCredentials]).
  reflexivity.
Defined.

Lemma mail_only_to_operator_witness :
  Forall (λ e, match e with SendEmail to _ _ => to = NOTIFY_EMAIL | _ => True end)
    (trace (handleMany [sampleSubmission] (sampleWorld [] mailUp))).
Proof.
  destruct (mail_only_to_operator [sampleSubmission] (sampleWorld [] mailUp))
    as (t & Ht & Hmail).
  rewrite Ht. apply Forall_forall. intros e He.
  destruct e; try exact I. eapply Hmail. exact He.
Defined.

Lemma request_id_shape_witness :
  String.length (nextRequestId (sampleWorld [] mailUp)) = 9 ∧
  JS.toUpperCase (JS.trim (nextRequestId (sampleWorld [] mailUp))) =
    nextRequestId (sampleWorld [] mailUp) ∧
  ("A"%char : ascii) ∉ ambiguous.
Proof.
  destruct (request_id_shape (sampleWorld [] mailUp)) as (Hlen & Hnorm & Hamb).
  split_and!; [exact Hlen|exact Hnorm|]. apply Hamb.
  vm_compute. do 3 apply list_elem_of_further. apply list_elem_of_here.
Defined.

Lemma every_request_id_is_drawn_witness :
  nextRequestId (mkWorld (mkSheet HEADER []) (streamFor "K7Q2ZA")
                   (λ _, mkDate 2026 3 15 10 0 0 0) mailUp []) = "WM-" +:+ "K7Q2ZA".
Proof.
  apply (every_request_id_is_drawn "K7Q2ZA").
  - reflexivity.
  - unfold alphabet. simpl.
    repeat (constructor;
            [repeat first [apply list_elem_of_here | apply list_elem_of_further]|]).
    constructor.
Defined.

Lemma check_reports_status_witness :
  (checkStatus sampleCredentials
     (sampleWorld [sampleRecord "field@un.org" ("Approved" +:+ NBSP)] mailUp)).1 =
    Return (StatusOf (JS.trim (cell (sampleRecord "field@un.org" ("Approved" +:+ NBSP)) 8))
              (bool_decide (JS.trim (cell (sampleRecord "field@un.org" ("Approved" +:+ NBSP)) 8)
                            = "Approved"))) ∧
  JS.trim (cell (sampleRecord "field@un.org" ("Approved" +:+ NBSP)) 8) = "Approved".
Proof.
  split; [|reflexivity].
  apply (check_reports_status sampleCredentials
           (sampleWorld [sampleRecord "field@un.org" ("Approved" +:+ NBSP)] mailUp) 0).
  - exact sampleCredentials_id.
  - exact sampleCredentials_email.
  - exact (sample_addressed ("Approved" +:+ NBSP) []).
Defined.

Lemma download_refuses_other_status_witness :
  let w := sampleWorld [sampleRecord "field@un.org" " approved "] mailUp in
  (markDownloaded sampleCredentials w).1 = Return (Failure ERR_NOT_APPROVED) ∧
  sheet (markDownloaded sampleCredentials w).2 = sheet w.
Proof.
  cbn zeta.
  apply (download_refuses_other_status sampleCredentials
           (sampleWorld [sampleRecord "field@un.org" " approved "] mailUp) 0
           (sampleRecord "field@un.org" " approved ")).
  - exact sampleCredentials_id.
  - exact sampleCredentials_email.
  - exact (sample_addressed " approved " []).
  - vm_compute. discriminate.
  - vm_compute. discriminate.
Defined.
